(** * gemini-mcp: connection manager and brainstorm session orchestrator

    A shallow embedding of [gemini-client.ts] (the version with the retrying
    connection test), [tools/brainstorm.ts] and [main] of [index.ts], and the
    properties of the retry loop, the prompt construction and the error
    boundary of the tool handlers.

    The TypeScript code is asynchronous and talks to three things outside
    itself: the upstream model API, the clock (timers) and the log.  All three
    are made explicit in a [World]; an [Async A] computation takes a world and
    gives an [Outcome A] with the world it leaves behind. *)

From Stdlib Require Import String Ascii List NArith ZArith Bool Arith Lia DecimalString.
From ExtLib Require Import Structures.Monad Structures.MonadExc.
Import ListNotations.
Import MonadNotation.
Local Open Scope monad_scope.
Local Open Scope list_scope.
Local Open Scope string_scope.

(* ===================================================================== *)
(** * The JavaScript run time, as far as the two modules use it          *)
(* ===================================================================== *)

Module Js.

(** ** Strings

    A JavaScript string is a sequence of code units; [String.length] and
    [substring] count code units, as [String.prototype.substring] does. *)

Definition nl : string := String "010" EmptyString.

(** A template literal that spans several source lines, written one source
    line per list element. *)
Definition lines (ls : list string) : string := String.concat nl ls.

(** [Array.prototype.join]. *)
Definition join (sep : string) (xs : list string) : string := String.concat sep xs.

(** [s.substring(indexStart, indexEnd)]: both indices are clamped to the
    length of [s] and swapped when they come in the wrong order. *)
Definition substring (s : string) (indexStart indexEnd : nat) : string :=
  let len := String.length s in
  let a := Nat.min indexStart len in
  let b := Nat.min indexEnd len in
  String.substring (Nat.min a b) (Nat.max a b - Nat.min a b) s.

(** [!s] for [s : string | undefined]: [undefined] and the empty string. *)
Definition falsy (s : option string) : bool :=
  match s with
  | None => true
  | Some EmptyString => true
  | Some (String _ _) => false
  end.

(** [s || fallback]. *)
Definition orElse (s : option string) (fallback : string) : string :=
  match s with
  | Some (String c r) => String c r
  | _ => fallback
  end.

(** The value of a string that is known to be defined. *)
Definition valueOf (s : option string) : string :=
  match s with
  | Some v => v
  | None => EmptyString
  end.

(** Decimal rendering of a small counter in a template literal. *)
Definition natToString (n : nat) : string := NilZero.string_of_uint (Nat.to_uint n).

(** ** What differs between engines

    [number] is the type of JavaScript numbers, [numberToString n] what a
    template literal renders for [n], [strictEq a b] is [a === b], and
    [typeErrorMessage p] the message of the [TypeError] raised by reading
    property [p] of [undefined]. *)
Class Engine := {
  number : Type;
  one : number;
  strictEq : number -> number -> bool;
  numberToString : number -> string;
  typeErrorMessage : string -> string
}.

(** ** Thrown values *)

Inductive Thrown :=
| ErrorObj (message : string)      (* an instance of Error *)
| NonError (shown : string).       (* anything else; [shown] is String(value) *)

(** [error instanceof Error ? error.message : String(error)] *)
Definition errorMessage (error : Thrown) : string :=
  match error with
  | ErrorObj message => message
  | NonError shown => shown
  end.

Definition typeError `{Engine} (property : string) : Thrown :=
  ErrorObj (typeErrorMessage property).

(** ** Promises *)

Inductive Settlement (A : Type) :=
| Fulfilled (a : A)
| Rejected (e : Thrown).
Arguments Fulfilled {A} a.
Arguments Rejected {A} e.

(** A promise is known by the instant (in milliseconds) at which it settles
    and by how, or it never settles. *)
Inductive Promise (A : Type) :=
| SettlesAt (t : N) (s : Settlement A)
| NeverSettles.
Arguments SettlesAt {A} t s.
Arguments NeverSettles {A}.

(** [Promise.race([p, q])]: the one that settles first decides; [firstOnTie]
    says which one the event loop serves first when both settle in the same
    millisecond. *)
Definition race {A} (firstOnTie : bool) (p q : Promise A) : Promise A :=
  match p, q with
  | NeverSettles, _ => q
  | _, NeverSettles => p
  | SettlesAt tp _, SettlesAt tq _ =>
      if (tp <? tq)%N then p
      else if (tq <? tp)%N then q
      else if firstOnTie then p else q
  end.

(** ** The upstream model API *)

(** What [generateContent] or [sendMessage] resolve with: a falsy value, or a
    result whose [response.text()] returns text or throws. *)
Inductive GenResult :=
| NoResult
| WithText (text : string)
| TextThrows (e : Thrown).

Inductive Request :=
| GenerateContent (model : string) (prompt : string)
| SendMessage (model : string) (content : string).

(** The upstream's answer to one request: settled after a delay, or never. *)
Inductive Reply :=
| After (delay : N) (s : Settlement GenResult)
| NoReply.

(** ** Events and the world *)

Inductive Channel :=
| ConsoleLog | ConsoleError
| LogInfo | LogWarn | LogError | LogDebug | LogPrompt | LogResponse.

Inductive Event :=
| EvLog (ch : Channel) (text : string)   (* first argument of the log call *)
| EvRequest (r : Request)                (* a call that reaches the upstream *)
| EvDeadline (ms : N)                    (* setTimeout(() => reject(..), ms) *)
| EvPause (ms : N)                       (* await of setTimeout(resolve, ms) *)
| EvConnect.                             (* server.connect(transport) *)

Record World := {
  now : N;                                       (* clock, ms *)
  env : string -> option string;                 (* process.env *)
  upstream : list Request -> Request -> Reply;   (* answer, given the requests before *)
  firstOnTie : bool;
  genAI : option string;                         (* module globals of gemini-client *)
  geminiProModel : option string;
  geminiFlashModel : option string;
  trace : list Event                             (* oldest first *)
}.

Fixpoint requestsOf (evs : list Event) : list Request :=
  match evs with
  | [] => []
  | EvRequest r :: rest => r :: requestsOf rest
  | _ :: rest => requestsOf rest
  end.

(** Requests and pauses, in order: the trace without the log lines and the
    timer registrations. *)
Inductive Action :=
| Call (r : Request)
| Pause (ms : N).

Fixpoint actionsOf (evs : list Event) : list Action :=
  match evs with
  | [] => []
  | EvRequest r :: rest => Call r :: actionsOf rest
  | EvPause ms :: rest => Pause ms :: actionsOf rest
  | _ :: rest => actionsOf rest
  end.

Definition emit (e : Event) (w : World) : World :=
  {| now := now w; env := env w; upstream := upstream w; firstOnTie := firstOnTie w;
     genAI := genAI w; geminiProModel := geminiProModel w;
     geminiFlashModel := geminiFlashModel w; trace := (trace w ++ [e])%list |}.

Definition advanceTo (t : N) (w : World) : World :=
  {| now := N.max (now w) t; env := env w; upstream := upstream w;
     firstOnTie := firstOnTie w; genAI := genAI w; geminiProModel := geminiProModel w;
     geminiFlashModel := geminiFlashModel w; trace := trace w |}.

Definition withGenAI (k : string) (w : World) : World :=
  {| now := now w; env := env w; upstream := upstream w; firstOnTie := firstOnTie w;
     genAI := Some k; geminiProModel := geminiProModel w;
     geminiFlashModel := geminiFlashModel w; trace := trace w |}.

Definition withProModel (m : string) (w : World) : World :=
  {| now := now w; env := env w; upstream := upstream w; firstOnTie := firstOnTie w;
     genAI := genAI w; geminiProModel := Some m;
     geminiFlashModel := geminiFlashModel w; trace := trace w |}.

Definition withFlashModel (m : string) (w : World) : World :=
  {| now := now w; env := env w; upstream := upstream w; firstOnTie := firstOnTie w;
     genAI := genAI w; geminiProModel := geminiProModel w;
     geminiFlashModel := Some m; trace := trace w |}.

(** ** Asynchronous computations *)

Inductive Outcome (A : Type) :=
| Done (a : A)          (* the promise of the async function is fulfilled *)
| Raised (e : Thrown)   (* it is rejected: the exception escapes *)
| Pending               (* it awaits a promise that never settles *)
| Exited (code : N)     (* process.exit(code): the process is gone *)
| Exhausted.            (* the model's loop fuel ran out; never the case, see
                           [initGeminiClient_total] *)
Arguments Done {A} a.
Arguments Raised {A} e.
Arguments Pending {A}.
Arguments Exited {A} code.
Arguments Exhausted {A}.

Definition Async (A : Type) : Type := World -> Outcome A * World.

#[export] Instance Monad_Async : Monad Async := {
  ret A a := fun w => (Done a, w);
  bind A B m k := fun w =>
    match m w with
    | (Done a, w') => k a w'
    | (Raised e, w') => (Raised e, w')
    | (Pending, w') => (Pending, w')
    | (Exited code, w') => (Exited code, w')
    | (Exhausted, w') => (Exhausted, w')
    end
}.

(** [throw e] and [try { body } catch (error) { handler }]. *)
#[export] Instance Exc_Async : MonadExc Thrown Async := {
  raise A e := fun w => (Raised e, w);
  catch A body handler := fun w =>
    match body w with
    | (Raised e, w') => handler e w'
    | other => other
    end
}.

Definition exhausted {A} : Async A := fun w => (Exhausted, w).

(** [process.exit(code)] *)
Definition processExit {A} (code : N) : Async A := fun w => (Exited code, w).

Definition log (ch : Channel) (text : string) : Async unit :=
  fun w => (Done tt, emit (EvLog ch text) w).

Definition getEnv (name : string) : Async (option string) :=
  fun w => (Done (env w name), w).

(** [new Promise((_, reject) => setTimeout(() => reject(reason), ms))] *)
Definition rejectAfter (ms : N) (reason : Thrown) : Async (Promise GenResult) :=
  fun w => (Done (SettlesAt (now w + ms) (Rejected reason)), emit (EvDeadline ms) w).

(** [await new Promise(resolve => setTimeout(resolve, ms))] *)
Definition sleep (ms : N) : Async unit :=
  fun w => (Done tt, advanceTo (now w + ms) (emit (EvPause ms) w)).

(** A call on a model handle or a chat: reading the method of an
    uninitialised handle is a [TypeError]; otherwise the request goes out and
    the promise of its answer comes back. *)
Definition callUpstream `{Engine} (handle : option string) (method : string)
    (mk : string -> Request) : Async (Promise GenResult) :=
  fun w =>
    match handle with
    | None => (Raised (typeError method), w)
    | Some model =>
        let r := mk model in
        let p := match upstream w (requestsOf (trace w)) r with
                 | After delay s => SettlesAt (now w + delay) s
                 | NoReply => NeverSettles
                 end in
        (Done p, emit (EvRequest r) w)
    end.

Definition await {A} (p : Promise A) : Async A :=
  fun w =>
    match p with
    | SettlesAt t (Fulfilled a) => (Done a, advanceTo t w)
    | SettlesAt t (Rejected e) => (Raised e, advanceTo t w)
    | NeverSettles => (Pending, w)
    end.

Definition promiseRace {A} (p q : Promise A) : Async (Promise A) :=
  fun w => (Done (race (firstOnTie w) p q), w).

(** [result.response.text()] *)
Definition responseText `{Engine} (result : GenResult) : Async string :=
  match result with
  | NoResult => raise (typeError "response")
  | WithText text => ret text
  | TextThrows e => raise e
  end.

End Js.

(* ===================================================================== *)
(** * gemini-client.ts                                                    *)
(* ===================================================================== *)

Module GeminiClient.
Import Js.

Section WithEngine.
Context `{Engine}.

Definition getGenAI : Async (option string) := fun w => (Done (genAI w), w).
Definition getProModel : Async (option string) := fun w => (Done (geminiProModel w), w).
Definition getFlashModel : Async (option string) := fun w => (Done (geminiFlashModel w), w).
Definition setGenAI (apiKey : string) : Async unit := fun w => (Done tt, withGenAI apiKey w).
Definition setProModel (name : string) : Async unit := fun w => (Done tt, withProModel name w).
Definition setFlashModel (name : string) : Async unit := fun w => (Done tt, withFlashModel name w).

(** [model.generateContent(prompt)] *)
Definition generateContent (model : option string) (prompt : string)
    : Async (Promise GenResult) :=
  callUpstream model "generateContent" (fun m => GenerateContent m prompt).

Definition maxAttempts : nat := 3.

(** [!result] *)
Definition noResult (result : GenResult) : bool :=
  match result with
  | NoResult => true
  | _ => false
  end.

(** The [try] block of one round of the connection loop, after [attempts++]. *)
Definition testConnection (proModelName flashModelName : string) (attempts : nat)
    : Async bool :=
  log LogInfo ("Connecting to Gemini API (attempt " ++ natToString attempts ++ "/"
               ++ natToString maxAttempts ++ ")...") ;;
  timeoutPromise <- rejectAfter 10000 (ErrorObj "Connection timeout") ;;
  flash <- getFlashModel ;;
  connectionPromise <- generateContent flash "Test connection" ;;
  raced <- promiseRace connectionPromise timeoutPromise ;;
  result <- await raced ;;
  if noResult result
  then raise (ErrorObj "Failed to connect to Gemini API: empty response")
  else
    log LogInfo "Successfully connected to Gemini API" ;;
    log LogInfo ("Pro model: " ++ proModelName) ;;
    log LogInfo ("Flash model: " ++ flashModelName) ;;
    ret true.

(** The [catch] block of one round; [connected] is the value the variable
    had when the [try] block was entered. *)
Definition connectionFailed (connected : bool) (attempts : nat) (error : Thrown)
    : Async bool :=
  let errorMessage := errorMessage error in
  log LogWarn ("Connection attempt " ++ natToString attempts ++ " failed: "
               ++ errorMessage) ;;
  if (maxAttempts <=? attempts)%nat
  then raise (ErrorObj ("Failed to connect to Gemini API after " ++ natToString maxAttempts
                        ++ " attempts: " ++ errorMessage))
  else sleep 2000 ;; ret connected.

(** [while (!connected && attempts < maxAttempts) { try {..} catch {..} }] *)
Fixpoint connectLoop (proModelName flashModelName : string) (fuel : nat)
    (connected : bool) (attempts : nat) : Async unit :=
  if negb connected && (attempts <? maxAttempts)%nat then
    match fuel with
    | O => exhausted
    | S fuel' =>
        let attempts := S attempts in
        connected' <- catch (testConnection proModelName flashModelName attempts)
                            (connectionFailed connected attempts) ;;
        connectLoop proModelName flashModelName fuel' connected' attempts
    end
  else ret tt.

Definition initGeminiClient : Async unit :=
  apiKey <- getEnv "GEMINI_API_KEY" ;;
  if falsy apiKey
  then raise (ErrorObj "GEMINI_API_KEY environment variable is required")
  else
    catch
      (setGenAI (valueOf apiKey) ;;
       proOverride <- getEnv "GEMINI_PRO_MODEL" ;;
       let proModelName := orElse proOverride "gemini-2.5-pro-preview-03-25" in
       flashOverride <- getEnv "GEMINI_FLASH_MODEL" ;;
       let flashModelName := orElse flashOverride "gemini-2.5-flash-preview-04-17" in
       setProModel proModelName ;;
       setFlashModel flashModelName ;;
       connectLoop proModelName flashModelName maxAttempts false 0)
      (fun error =>
         log LogError "Failed to initialize Gemini client:" ;;
         raise error).

(** [generateWithGeminiPro] and [generateWithGeminiFlash] *)
Definition generateWithGeminiPro (prompt : string) : Async string :=
  catch
    (log LogPrompt prompt ;;
     model <- getProModel ;;
     promise <- generateContent model prompt ;;
     result <- await promise ;;
     response <- responseText result ;;
     log LogResponse response ;;
     ret response)
    (fun error =>
       log LogError "Error generating content with Gemini Pro:" ;;
       raise error).

Definition generateWithGeminiFlash (prompt : string) : Async string :=
  catch
    (log LogPrompt prompt ;;
     model <- getFlashModel ;;
     promise <- generateContent model prompt ;;
     result <- await promise ;;
     response <- responseText result ;;
     log LogResponse response ;;
     ret response)
    (fun error =>
       log LogError "Error generating content with Gemini Flash:" ;;
       raise error).

(** ** generateWithChat *)

Inductive Role := User | Model.

Record Message := { role : Role; content : string }.

Definition isUser (r : Role) : bool :=
  match r with
  | User => true
  | Model => false
  end.

(** [model.startChat()]: the chat talks to the model it was started on. *)
Definition startChat (model : option string) : Async string :=
  match model with
  | None => raise (typeError "startChat")
  | Some name => ret name
  end.

(** [chat.sendMessage(text)] *)
Definition sendMessage (chat : string) (text : string) : Async (Promise GenResult) :=
  callUpstream (Some chat) "sendMessage" (fun m => SendMessage m text).

(** [for (const message of messages) { if (message.role === "user") {..} }] *)
Fixpoint forwardUserMessages (chat : string) (messages : list Message) : Async unit :=
  match messages with
  | [] => ret tt
  | message :: rest =>
      (if isUser (role message)
       then log LogPrompt (content message) ;;
            promise <- sendMessage chat (content message) ;;
            _ <- await promise ;;
            ret tt
       else ret tt) ;;
      forwardUserMessages chat rest
  end.

(** [messages[messages.length - 1]] *)
Definition lastOf (messages : list Message) : option Message :=
  nth_error messages (length messages - 1).

Definition generateWithChat (messages : list Message) (useProModel : bool)
    : Async string :=
  catch
    (model <- (if useProModel then getProModel else getFlashModel) ;;
     chat <- startChat model ;;
     log LogDebug "Starting chat with messages:" ;;
     forwardUserMessages chat messages ;;
     match lastOf messages with
     | None => raise (typeError "role")
     | Some lastMessage =>
         if isUser (role lastMessage)
         then
           log LogPrompt (content lastMessage) ;;
           promise <- sendMessage chat (content lastMessage) ;;
           result <- await promise ;;
           response <- responseText result ;;
           log LogResponse response ;;
           ret response
         else ret (content lastMessage)
     end)
    (fun error =>
       log LogError "Error generating content with chat:" ;;
       raise error).

End WithEngine.
End GeminiClient.

(* ===================================================================== *)
(** * tools/brainstorm.ts                                                 *)
(* ===================================================================== *)

Module Brainstorm.
Import Js GeminiClient.

Section WithEngine.
Context `{Engine}.

Record BrainstormRound := {
  round : number;
  claudeInput : string;
  geminiResponse : string
}.

(** What a tool handler returns to the host: [{ content: [{ type, text }] }],
    with [isError: true] on an error payload. *)
Record ContentItem := { type : string; text : string }.

Record ToolResult := { content : list ContentItem; isError : option bool }.

Definition textResult (t : string) : ToolResult :=
  {| content := [ {| type := "text"; text := t |} ]; isError := None |}.

Definition errorResult (t : string) : ToolResult :=
  {| content := [ {| type := "text"; text := t |} ]; isError := Some true |}.

(** The arrow function both handlers map over the history. *)
Definition renderEntry (entry : BrainstormRound) : string :=
  lines [ "";
          "Round " ++ numberToString (round entry) ++ ":";
          "- Claude: " ++ substring (claudeInput entry) 0 500 ++ "...";
          "- Gemini: " ++ substring (geminiResponse entry) 0 500 ++ "...";
          "" ].

(** [history.map(entry => ..).join("\n")] *)
Definition historyText (history : list BrainstormRound) : string :=
  join nl (map renderEntry history).

Definition initialPrompt (prompt : string) : string :=
  lines [ "";
          "You are participating in a collaborative brainstorming session with Claude, another AI assistant.";
          "Together, you will create a plan to address the following request:";
          "";
          "---";
          prompt;
          "---";
          "";
          "Please provide your initial thoughts, considering:";
          "1. How you would approach this problem";
          "2. What information or resources you might need";
          "3. Any challenges you anticipate";
          "4. The steps you would take to implement a solution";
          "";
          "Remember, this is the first round of a collaborative discussion, so focus on sharing your initial perspective rather than a complete solution.";
          "" ].

Definition collaborationPrompt (prompt : string) (round : number)
    (claudeInput : string) (history : list BrainstormRound) : string :=
  let historyText := historyText history in
  lines [ "";
          "You are in round " ++ numberToString round
            ++ " of a collaborative brainstorming session about this request:";
          "";
          "---";
          prompt;
          "---";
          "";
          (if (0 <? length history)%nat
           then "Here's a summary of the previous rounds:" ++ nl ++ historyText
           else "");
          "";
          "Claude's latest perspective:";
          claudeInput;
          "";
          "Based on Claude's perspective"
            ++ (if (0 <? length history)%nat then " and the previous discussion" else "")
            ++ ", please:";
          "1. Identify areas where you agree with Claude";
          "2. Note any valuable insights from Claude that you hadn't considered";
          "3. Respectfully point out any potential issues with Claude's approach";
          "4. Build upon both your ideas to refine the approach";
          "5. Suggest concrete next steps or details to consider";
          "";
          "Remember, this is a collaborative process to develop the best possible solution.";
          "" ].

Definition synthesisPrompt (prompt : string) (history : list BrainstormRound) : string :=
  let historyText := historyText history in
  lines [ "";
          "You've participated in a collaborative brainstorming session with Claude about this request:";
          "";
          "---";
          prompt;
          "---";
          "";
          "Here's the complete conversation history:";
          historyText;
          "";
          "Based on this collaborative discussion, please provide:";
          "1. A comprehensive synthesis of the best ideas from both assistants";
          "2. A clear, step-by-step plan to address the user's request";
          "3. Required resources, tools, or information needed";
          "4. Any potential challenges and how to address them";
          "5. A conclusion summarizing the unified approach";
          "";
          "Present this as a unified final plan that represents the best collaborative thinking of both assistants.";
          "" ].

(** ** The "gemini-brainstorm" tool *)

(** The [try] block of the handler. *)
Definition brainstormTry (prompt : string) (round : number)
    (claudeInput : option string) (history : list BrainstormRound) : Async ToolResult :=
  if strictEq round one then
    geminiResponse <- generateWithGeminiPro (initialPrompt prompt) ;;
    ret (textResult geminiResponse)
  else
    if falsy claudeInput
    then ret (errorResult "Error: Claude's input is required for rounds after the first one")
    else
      geminiResponse <- generateWithGeminiPro
                          (collaborationPrompt prompt round (valueOf claudeInput) history) ;;
      ret (textResult geminiResponse).

(** The [catch] block of the handler. *)
Definition brainstormCatch (error : Thrown) : Async ToolResult :=
  let errorMessage := errorMessage error in
  log ConsoleError ("Error in brainstorming: " ++ errorMessage) ;;
  ret (errorResult ("Error: " ++ errorMessage)).

(** [async ({ prompt, round, claudeInput, history = [] }) => {..}] *)
Definition brainstormHandler (prompt : string) (round : number)
    (claudeInput : option string) (history : option (list BrainstormRound))
    : Async ToolResult :=
  let history := match history with Some h => h | None => [] end in
  log ConsoleLog ("Brainstorming round " ++ numberToString round ++ " with Gemini") ;;
  catch (brainstormTry prompt round claudeInput history) brainstormCatch.

(** ** The "gemini-brainstorm-synthesis" tool *)

Definition synthesisTry (prompt : string) (history : list BrainstormRound)
    : Async ToolResult :=
  geminiResponse <- generateWithGeminiPro (synthesisPrompt prompt history) ;;
  ret (textResult geminiResponse).

Definition synthesisCatch (error : Thrown) : Async ToolResult :=
  let errorMessage := errorMessage error in
  log ConsoleError ("Error in brainstorm synthesis: " ++ errorMessage) ;;
  ret (errorResult ("Error: " ++ errorMessage)).

(** [async ({ prompt, history }) => {..}] *)
Definition synthesisHandler (prompt : string) (history : list BrainstormRound)
    : Async ToolResult :=
  log ConsoleLog "Creating brainstorm synthesis with Gemini" ;;
  catch (synthesisTry prompt history) synthesisCatch.

End WithEngine.
End Brainstorm.

(* ===================================================================== *)
(** * index.ts                                                            *)
(* ===================================================================== *)

Module Index.
Import Js GeminiClient.

Section WithEngine.
Context `{Engine}.

(** [new McpServer(..)], the [register..Tool(server)] calls and
    [await server.connect(transport)]: from here on the host can invoke the
    tools. *)
Definition serveTools : Async unit := fun w => (Done tt, emit EvConnect w).

(** [main()]; [logLevel] is what the command line and the environment chose.
    The signal handlers it installs at the end are left out. *)
Definition main (logLevel : string) : Async unit :=
  override <- getEnv "GEMINI_MODEL" ;;
  let geminiModel := orElse override "gemini-2.5-pro-preview-03-25" in
  log LogInfo ("Starting MCP Gemini Server with model: " ++ geminiModel) ;;
  log LogInfo ("Logging mode: " ++ logLevel) ;;
  catch
    (initGeminiClient ;;
     serveTools ;;
     log LogInfo "MCP Gemini Server running")
    (fun error =>
       log LogError "Failed to start MCP Gemini Server:" ;;
       processExit 1).







End WithEngine.
End Index.

(* ===================================================================== *)
(** * gemini-client.ts, the revision that tests the connection once       *)
(* ===================================================================== *)

(** The generation functions of this revision are those of [GeminiClient],
    word for word; only [initGeminiClient] differs. *)
Module GeminiClientOnce.
Import Js GeminiClient.

Section WithEngine.
Context `{Engine}.

Definition initGeminiClient : Async unit :=
  apiKey <- getEnv "GEMINI_API_KEY" ;;
  if falsy apiKey
  then raise (ErrorObj "GEMINI_API_KEY environment variable is required")
  else
    catch
      (setGenAI (valueOf apiKey) ;;
       proOverride <- getEnv "GEMINI_PRO_MODEL" ;;
       let proModelName := orElse proOverride "gemini-2.5-pro" in
       flashOverride <- getEnv "GEMINI_FLASH_MODEL" ;;
       let flashModelName := orElse flashOverride "gemini-2.5-flash" in
       setProModel proModelName ;;
       setFlashModel flashModelName ;;
       flash <- getFlashModel ;;
       promise <- generateContent flash "Test connection" ;;
       result <- await promise ;;
       if noResult result
       then raise (ErrorObj "Failed to connect to Gemini API")
       else
         log LogInfo "Successfully connected to Gemini API" ;;
         log LogInfo ("Pro model: " ++ proModelName) ;;
         log LogInfo ("Flash model: " ++ flashModelName) ;;
         ret tt)
      (fun error =>
         log LogError "Failed to initialize Gemini client:" ;;
         raise error).

End WithEngine.
End GeminiClientOnce.

(* ===================================================================== *)
(** * Vocabulary of the properties                                        *)
(* ===================================================================== *)

Module Spec.
Import Js GeminiClient Brainstorm.

(** [needle] occurs in [hay]. *)
Definition contains (hay needle : string) : Prop :=
  exists before after, hay = before ++ needle ++ after.

(** The upstream requests made between world [w] and a later world [w']. *)
Definition issued (w w' : World) : list Request :=
  skipn (length (requestsOf (trace w))) (requestsOf (trace w')).

(** Requests and pauses between [w] and [w']. *)
Definition performed (w w' : World) : list Action :=
  skipn (length (actionsOf (trace w))) (actionsOf (trace w')).

(** What the upstream answers to [r] when it is the next request made in [w]. *)
Definition nextReply (w : World) (r : Request) : Reply :=
  upstream w (requestsOf (trace w)) r.

(** The module globals are the same in both worlds. *)
Definition sameHandles (w w' : World) : Prop :=
  genAI w' = genAI w /\ geminiProModel w' = geminiProModel w
  /\ geminiFlashModel w' = geminiFlashModel w.

(** ** Connection test *)

Definition hasCredential (w : World) : Prop := falsy (env w "GEMINI_API_KEY") = false.

Definition flashModelName (w : World) : string :=
  orElse (env w "GEMINI_FLASH_MODEL") "gemini-2.5-flash-preview-04-17".

Definition proModelName (w : World) : string :=
  orElse (env w "GEMINI_PRO_MODEL") "gemini-2.5-pro-preview-03-25".

(** The world once [initGeminiClient] has created its handles. *)
Definition configured (w : World) : World :=
  withFlashModel (flashModelName w)
    (withProModel (proModelName w)
       (withGenAI (valueOf (env w "GEMINI_API_KEY")) w)).

Definition testRequest (w : World) : Request :=
  GenerateContent (flashModelName w) "Test connection".

(** The answer to the validation call number [k] (from 0) of an
    initialisation that starts in [w]. *)
Definition validation (w : World) (k : nat) : Reply :=
  upstream w (requestsOf (trace w) ++ repeat (testRequest w) k)%list (testRequest w).

(** The world right after the validation request of attempt [a] went out. *)
Definition attemptSent (flash : string) (a : nat) (w : World) : World :=
  emit (EvRequest (GenerateContent flash "Test connection"))
    (emit (EvDeadline 10000)
       (emit (EvLog LogInfo ("Connecting to Gemini API (attempt " ++ natToString a ++ "/"
                             ++ natToString maxAttempts ++ ")...")) w)).

(** The call beats a timer of [ms] milliseconds armed at the same instant. *)
Definition inTime (tie : bool) (ms delay : N) : bool :=
  (delay <? ms)%N || ((delay =? ms)%N && tie).

(** Why a validation attempt with this answer fails, [None] when it
    succeeds: it fails when the call is rejected, when it resolves with a
    falsy result, and when it has not settled after 10 seconds. *)
Definition validationFailure (tie : bool) (r : Reply) : option string :=
  match r with
  | NoReply => Some "Connection timeout"
  | After delay s =>
      if inTime tie 10000 delay then
        match s with
        | Rejected e => Some (errorMessage e)
        | Fulfilled NoResult => Some "Failed to connect to Gemini API: empty response"
        | Fulfilled _ => None
        end
      else Some "Connection timeout"
  end.

(** The verdict on the [k]-th of a run of requests [r] that starts in [w]. *)
Definition verdict (w : World) (r : Request) (k : nat) : option string :=
  validationFailure (firstOnTie w)
    (upstream w (requestsOf (trace w) ++ repeat r k)%list r).

(** What [initGeminiClient] throws when the last attempt failed with
    [message]. *)
Definition connectionExhausted (message : string) : Thrown :=
  ErrorObj ("Failed to connect to Gemini API after 3 attempts: " ++ message).

Definition fails (w : World) (k : nat) (message : string) : Prop :=
  validationFailure (firstOnTie w) (validation w k) = Some message.

Definition succeeds (w : World) (k : nat) : Prop :=
  validationFailure (firstOnTie w) (validation w k) = None.

(** [n] failed validation calls, each followed by the 2 second pause, and
    one more validation call. *)
Fixpoint retrySchedule (r : Request) (n : nat) : list Action :=
  match n with
  | O => [Call r]
  | S n' => Call r :: Pause 2000 :: retrySchedule r n'
  end.

(** The answer has not arrived when the 10 second timer fires. *)
Definition tooLate (r : Reply) : Prop :=
  r = NoReply \/ exists delay s, r = After delay s /\ (10000 < delay)%N.

(** Two upstreams that differ only in what they answer after the deadline. *)
Definition sameUntilDeadline (u u' : list Request -> Request -> Reply) : Prop :=
  forall before r, u before r = u' before r \/ (tooLate (u before r) /\ tooLate (u' before r)).

(** Two worlds that differ only in what their upstreams answer after the
    deadline. *)
Definition alike (w w' : World) : Prop :=
  now w' = now w /\ env w' = env w /\ firstOnTie w' = firstOnTie w
  /\ sameHandles w w' /\ trace w' = trace w
  /\ sameUntilDeadline (upstream w) (upstream w').

(** ** Chat *)

Definition userContents (messages : list Message) : list string :=
  map GeminiClient.content (filter (fun m => isUser (role m)) messages).

Definition sentMessages (rs : list Request) : list string :=
  flat_map (fun r => match r with
                     | SendMessage _ text => [text]
                     | GenerateContent _ _ => []
                     end) rs.

(** The chat fulfils (with whatever result) each of the sends [texts], made
    one after the other once the requests [before] have been made. *)
Fixpoint loopAnswered (u : list Request -> Request -> Reply) (before : list Request)
    (chat : string) (texts : list string) : Prop :=
  match texts with
  | [] => True
  | text :: rest =>
      (exists delay result,
          u before (SendMessage chat text) = After delay (Fulfilled result))
      /\ loopAnswered u (before ++ [SendMessage chat text])%list chat rest
  end.

(** The line [generateWithGeminiPro] logs before it rethrows. *)
Definition proFailureLog : Event :=
  EvLog LogError "Error generating content with Gemini Pro:".

(** What the [try]/[catch] of a tool handler makes of the outcome of the
    generation call; [label] starts the line written to the console. *)
Definition boundary `{Engine} (label : string) (r : Outcome string * World)
    : Outcome ToolResult * World :=
  match r with
  | (Done t, w') => (Done (textResult t), w')
  | (Raised e, w') =>
      (Done (errorResult ("Error: " ++ errorMessage e)),
       emit (EvLog ConsoleError (label ++ errorMessage e)) w')
  | (Pending, w') => (Pending, w')
  | (Exited code, w') => (Exited code, w')
  | (Exhausted, w') => (Exhausted, w')
  end.

(** The upstream call behind a generation fails with [e]: the call is
    rejected, or the result has no readable text. *)
Inductive failsWith `{Engine} : Reply -> Thrown -> Prop :=
| fails_rejected d e : failsWith (After d (Rejected e)) e
| fails_text_throws d e : failsWith (After d (Fulfilled (TextThrows e))) e
| fails_no_result d : failsWith (After d (Fulfilled NoResult)) (typeError "response").

(** The exception does not escape and the process lives on: the handler
    returns, or waits for the upstream. *)
Definition contained {A} (out : Outcome A) : Prop :=
  match out with
  | Raised _ | Exited _ | Exhausted => False
  | Done _ | Pending => True
  end.

(** Everything but the clock and the trace is the same in both worlds. *)
Definition sameSetup (w w' : World) : Prop :=
  env w' = env w /\ upstream w' = upstream w /\ firstOnTie w' = firstOnTie w
  /\ sameHandles w w'.

(** ** Stub upstream *)

(** Every [generateContent] call resolves with the text [t]. *)
Definition stubReturning (t : string) (w : World) : Prop :=
  forall before model prompt, exists delay,
    upstream w before (GenerateContent model prompt) = After delay (Fulfilled (WithText t)).

(** ** Further vocabulary *)

(** [xs] is an initial part of [ys]. *)
Definition prefixOf {A} (xs ys : list A) : Prop := exists rest, ys = (xs ++ rest)%list.

(** How often the server was connected. *)
Fixpoint connectsOf (evs : list Event) : nat :=
  match evs with
  | [] => 0
  | EvConnect :: rest => S (connectsOf rest)
  | _ :: rest => connectsOf rest
  end.

(** The longest the connection loop can still take, in ms, after [a]
    attempts: 10 seconds for each attempt left and 2 seconds between two of
    them. *)
Definition budget (a : nat) : N :=
  match (maxAttempts - a)%nat with
  | O => 0
  | S k => 12000 * N.of_nat k + 10000
  end.

(** The line [generateWithGeminiFlash] logs before it rethrows. *)
Definition flashFailureLog : Event :=
  EvLog LogError "Error generating content with Gemini Flash:".

(** The names the single-attempt revision falls back to. *)
Definition flashModelNameOnce (w : World) : string :=
  orElse (env w "GEMINI_FLASH_MODEL") "gemini-2.5-flash".

Definition proModelNameOnce (w : World) : string :=
  orElse (env w "GEMINI_PRO_MODEL") "gemini-2.5-pro".

(** What a chat sends for a list of messages when nothing goes wrong. *)
Definition chatPlan (messages : list Message) : list string :=
  (userContents messages
   ++ match lastOf messages with
      | Some lastMessage =>
          if isUser (role lastMessage) then [GeminiClient.content lastMessage] else []
      | None => []
      end)%list.

End Spec.

(* ===================================================================== *)
(** * A concrete engine and concrete worlds                               *)
(* ===================================================================== *)

Module Node.
Import Js GeminiClient Brainstorm Spec.

Definition engine : Engine := {|
  number := Z;
  one := 1%Z;
  strictEq := Z.eqb;
  numberToString := fun z => NilZero.string_of_int (Z.to_int z);
  typeErrorMessage := fun p => "Cannot read properties of undefined (reading '" ++ p ++ "')"
|}.

Definition keyOnly (name : string) : option string :=
  if (name =? "GEMINI_API_KEY")%string then Some "test-key" else None.

(** Before [initGeminiClient]. *)
Definition fresh (u : list Request -> Request -> Reply) : World :=
  {| now := 0; env := keyOnly; upstream := u; firstOnTie := true;
     genAI := None; geminiProModel := None; geminiFlashModel := None; trace := [] |}.

(** After a successful [initGeminiClient]. *)
Definition ready (u : list Request -> Request -> Reply) : World :=
  {| now := 0; env := keyOnly; upstream := u; firstOnTie := true;
     genAI := Some "test-key";
     geminiProModel := Some "gemini-2.5-pro-preview-03-25";
     geminiFlashModel := Some "gemini-2.5-flash-preview-04-17"; trace := [] |}.

Definition answering (t : string) : list Request -> Request -> Reply :=
  fun _ _ => After 40 (Fulfilled (WithText t)).

Definition rejecting (e : Thrown) : list Request -> Request -> Reply :=
  fun _ _ => After 40 (Rejected e).

Definition silent : list Request -> Request -> Reply :=
  fun _ _ => NoReply.

Definition slow (ms : N) : list Request -> Request -> Reply :=
  fun _ _ => After ms (Fulfilled (WithText "pong")).

(** Rejects the first [n] requests, answers from then on. *)
Definition flaky (n : nat) : list Request -> Request -> Reply :=
  fun before _ =>
    if (length before <? n)%nat
    then After 40 (Rejected (ErrorObj "503 Service Unavailable"))
    else After 40 (Fulfilled (WithText "pong")).

Definition roundOne : @BrainstormRound engine :=
  {| round := (1%Z : @number engine); claudeInput := "X"; geminiResponse := "A" |}.

(** A text of 2000 characters. *)
Definition longText : string :=
  String.concat "" (repeat "0123456789" 200).

Definition chatter : list Message :=
  [ {| role := User; GeminiClient.content := "hello" |};
    {| role := Model; GeminiClient.content := "hi" |};
    {| role := User; GeminiClient.content := "plan?" |} ].

(** No variable is set. *)
Definition noEnv (name : string) : option string := None.

(** The key and an override of the Pro model; the Flash override is set but
    empty. *)
Definition overrides (name : string) : option string :=
  if (name =? "GEMINI_API_KEY")%string then Some "test-key"
  else if (name =? "GEMINI_PRO_MODEL")%string then Some "gemini-exp"
  else if (name =? "GEMINI_FLASH_MODEL")%string then Some ""
  else None.

Definition freshWith (e : string -> option string)
    (u : list Request -> Request -> Reply) : World :=
  {| now := 0; env := e; upstream := u; firstOnTie := true;
     genAI := None; geminiProModel := None; geminiFlashModel := None; trace := [] |}.

(** Answers the first [n] requests, rejects the next one with [e], answers
    again after that. *)
Definition rejectingAt (n : nat) (e : Thrown) : list Request -> Request -> Reply :=
  fun before _ =>
    if (length before =? n)%nat
    then After 40 (Rejected e)
    else After 40 (Fulfilled (WithText "ok")).

Definition modelLast : list Message :=
  [ {| role := User; GeminiClient.content := "hello" |};
    {| role := User; GeminiClient.content := "plan?" |};
    {| role := Model; GeminiClient.content := "here is a plan" |} ].

Definition roundTwo : @BrainstormRound engine :=
  {| round := (2%Z : @number engine); claudeInput := longText; geminiResponse := "B" |}.

End Node.

(* ===================================================================== *)
(** * Facts about strings                                                 *)
(* ===================================================================== *)

Import Js GeminiClient Brainstorm Spec.

Lemma append_assoc (a b c : string) : (a ++ b) ++ c = a ++ (b ++ c).
Proof.
  induction a as [|ch a IH]; simpl; [reflexivity | now rewrite IH].
Qed.

Lemma append_nil_r (a : string) : a ++ "" = a.
Proof.
  induction a as [|ch a IH]; simpl; [reflexivity | now rewrite IH].
Qed.

Lemma length_append (a b : string) :
  String.length (a ++ b) = String.length a + String.length b.
Proof.
  induction a as [|ch a IH]; simpl; [reflexivity | now rewrite IH].
Qed.

Lemma substring_from_0_length (n : nat) (s : string) :
  String.length (String.substring 0 n s) = Nat.min n (String.length s).
Proof.
  revert s; induction n as [|n IH]; intros [|ch s]; simpl; try reflexivity.
  now rewrite IH.
Qed.

Lemma substring_from_0_prefix (n : nat) (s : string) :
  exists rest, s = String.substring 0 n s ++ rest.
Proof.
  revert s; induction n as [|n IH]; intros [|ch s]; simpl.
  - now exists "".
  - now exists (String ch s).
  - now exists "".
  - destruct (IH s) as [rest E]. exists rest. now rewrite <- E.
Qed.

Lemma substring_from_0_whole (n : nat) (s : string) :
  String.length s <= n -> String.substring 0 n s = s.
Proof.
  revert s; induction n as [|n IH]; intros [|ch s]; simpl; intros L;
    try reflexivity; try lia.
  rewrite IH by lia. reflexivity.
Qed.

(** [s.substring(0, n)] is the longest prefix of [s] of at most [n] code units. *)
Lemma substring_0_eq (s : string) (n : nat) :
  substring s 0 n = String.substring 0 (Nat.min n (String.length s)) s.
Proof.
  unfold substring. simpl. now rewrite Nat.sub_0_r.
Qed.

Lemma substring_0_length (s : string) (n : nat) :
  String.length (substring s 0 n) = Nat.min n (String.length s).
Proof.
  rewrite substring_0_eq, substring_from_0_length. lia.
Qed.

Lemma substring_0_prefix (s : string) (n : nat) :
  exists rest, s = substring s 0 n ++ rest.
Proof.
  rewrite substring_0_eq. apply substring_from_0_prefix.
Qed.

Lemma substring_0_short (s : string) (n : nat) :
  String.length s <= n -> substring s 0 n = s.
Proof.
  intros L. rewrite substring_0_eq.
  rewrite Nat.min_r by exact L. now apply substring_from_0_whole.
Qed.

Lemma contains_refl (s : string) : contains s s.
Proof.
  exists "", "". simpl. now rewrite append_nil_r.
Qed.

Lemma contains_trans (a b c : string) : contains a b -> contains b c -> contains a c.
Proof.
  intros (p & q & ->) (p' & q' & ->).
  exists (p ++ p'), (q' ++ q). now rewrite !append_assoc.
Qed.

Lemma contains_append_l (a b x : string) : contains a x -> contains (a ++ b) x.
Proof.
  intros (p & q & ->). exists p, (q ++ b). now rewrite !append_assoc.
Qed.

Lemma contains_append_r (a b x : string) : contains b x -> contains (a ++ b) x.
Proof.
  intros (p & q & ->). exists (a ++ p), q. now rewrite !append_assoc.
Qed.

Lemma contains_concat (sep x : string) (xs : list string) :
  In x xs -> contains (String.concat sep xs) x.
Proof.
  induction xs as [|y ys IH]; [intros [] |].
  intros [-> | Hin].
  - destruct ys; simpl; [apply contains_refl |].
    apply contains_append_l, contains_refl.
  - destruct ys as [|z zs]; [destruct Hin |].
    change (String.concat sep (y :: z :: zs))
      with (y ++ sep ++ String.concat sep (z :: zs)).
    now apply contains_append_r, contains_append_r, IH.
Qed.

Create HintDb strings.
#[local] Hint Resolve contains_refl contains_append_l contains_append_r : strings.

(** The shape of one rendered history entry. *)
Lemma renderEntry_shape `{Engine} (entry : BrainstormRound) :
  renderEntry entry =
    nl ++ "Round " ++ numberToString (round entry) ++ ":" ++ nl
       ++ "- Claude: " ++ substring (claudeInput entry) 0 500 ++ "..." ++ nl
       ++ "- Gemini: " ++ substring (geminiResponse entry) 0 500 ++ "..." ++ nl.
Proof.
  unfold renderEntry, lines. cbn [String.concat].
  rewrite !append_assoc. reflexivity.
Qed.

Lemma historyText_contains `{Engine} (history : list BrainstormRound) entry :
  In entry history -> contains (historyText history) (renderEntry entry).
Proof.
  intros Hin. unfold historyText, join.
  apply contains_concat, in_map, Hin.
Qed.

Lemma collaborationPrompt_contains_historyText `{Engine} prompt round input
    (history : list BrainstormRound) :
  history <> [] ->
  contains (collaborationPrompt prompt round input history) (historyText history).
Proof.
  intros Hne. unfold collaborationPrompt, lines.
  eapply contains_trans.
  - apply contains_concat. do 7 right. left. reflexivity.
  - destruct history as [|e rest]; [congruence |].
    cbn [length Nat.ltb Nat.leb]. auto with strings.
Qed.

Lemma synthesisPrompt_contains_historyText `{Engine} prompt
    (history : list BrainstormRound) :
  contains (synthesisPrompt prompt history) (historyText history).
Proof.
  unfold synthesisPrompt, lines.
  apply contains_concat. do 8 right. left. reflexivity.
Qed.

(* ===================================================================== *)
(** * Facts about traces                                                  *)
(* ===================================================================== *)

Lemma requestsOf_app (a b : list Event) :
  requestsOf (a ++ b) = (requestsOf a ++ requestsOf b)%list.
Proof.
  induction a as [|[] a IH]; simpl; rewrite ?IH; reflexivity.
Qed.

Lemma actionsOf_app (a b : list Event) :
  actionsOf (a ++ b) = (actionsOf a ++ actionsOf b)%list.
Proof.
  induction a as [|[] a IH]; simpl; rewrite ?IH; reflexivity.
Qed.

Lemma skipn_length_app {A} (a b : list A) : skipn (length a) (a ++ b) = b.
Proof.
  induction a as [|x a IH]; simpl; [reflexivity | exact IH].
Qed.

Lemma issued_app (w w' : World) (evs : list Event) :
  trace w' = (trace w ++ evs)%list -> issued w w' = requestsOf evs.
Proof.
  intros E. unfold issued. rewrite E, requestsOf_app. apply skipn_length_app.
Qed.

Lemma performed_app (w w' : World) (evs : list Event) :
  trace w' = (trace w ++ evs)%list -> performed w w' = actionsOf evs.
Proof.
  intros E. unfold performed. rewrite E, actionsOf_app. apply skipn_length_app.
Qed.

(* ===================================================================== *)
(** * Running the generation call and the tool boundary                   *)
(* ===================================================================== *)

(** What [generateWithGeminiPro] does once the client is initialised, by
    the answer of the upstream. *)
Lemma generateWithGeminiPro_run `{Engine} (prompt : string) (w : World) (m : string) :
  geminiProModel w = Some m ->
  let r := GenerateContent m prompt in
  let sent := emit (EvRequest r) (emit (EvLog LogPrompt prompt) w) in
  generateWithGeminiPro prompt w =
    match nextReply w r with
    | NoReply => (Pending, sent)
    | After d (Rejected e) =>
        (Raised e, emit proFailureLog (advanceTo (now w + d) sent))
    | After d (Fulfilled NoResult) =>
        (Raised (typeError "response"), emit proFailureLog (advanceTo (now w + d) sent))
    | After d (Fulfilled (WithText t)) =>
        (Done t, emit (EvLog LogResponse t) (advanceTo (now w + d) sent))
    | After d (Fulfilled (TextThrows e)) =>
        (Raised e, emit proFailureLog (advanceTo (now w + d) sent))
    end.
Proof.
  intros Hm r sent. unfold nextReply.
  unfold generateWithGeminiPro, generateContent, callUpstream, getProModel, log.
  cbn. rewrite Hm.
  rewrite requestsOf_app. cbn [requestsOf]. rewrite app_nil_r.
  fold r.
  destruct (upstream w (requestsOf (trace w)) r) as [d [[| t | e] | e] |];
    reflexivity.
Qed.

(** Before initialisation the handle is [undefined]: no request goes out. *)
Lemma generateWithGeminiPro_unready `{Engine} (prompt : string) (w : World) :
  geminiProModel w = None ->
  generateWithGeminiPro prompt w =
    (Raised (typeError "generateContent"),
     emit proFailureLog (emit (EvLog LogPrompt prompt) w)).
Proof.
  intros Hm.
  unfold generateWithGeminiPro, generateContent, callUpstream, getProModel, log.
  cbn. rewrite Hm. reflexivity.
Qed.

Lemma nextReply_log (ch : Channel) (text : string) (w : World) (r : Request) :
  nextReply (emit (EvLog ch text) w) r = nextReply w r.
Proof.
  unfold nextReply. cbn. rewrite requestsOf_app. cbn. now rewrite app_nil_r.
Qed.

Lemma brainstormHandler_run `{Engine} prompt round claudeInput history (w : World) :
  let h := match history with Some h => h | None => [] end in
  let w0 := emit (EvLog ConsoleLog
                    ("Brainstorming round " ++ numberToString round ++ " with Gemini")) w in
  brainstormHandler prompt round claudeInput history w =
    if strictEq round one then
      boundary "Error in brainstorming: " (generateWithGeminiPro (initialPrompt prompt) w0)
    else if falsy claudeInput then
      (Done (errorResult "Error: Claude's input is required for rounds after the first one"),
       w0)
    else
      boundary "Error in brainstorming: "
        (generateWithGeminiPro
           (collaborationPrompt prompt round (valueOf claudeInput) h) w0).
Proof.
  intros h w0. unfold brainstormHandler, brainstormTry, brainstormCatch, boundary, log.
  fold h. cbn -[generateWithGeminiPro initialPrompt collaborationPrompt emit append].
  fold w0.
  destruct (strictEq round one).
  - destruct (generateWithGeminiPro (initialPrompt prompt) w0) as [[t | e | | code |] w1];
      reflexivity.
  - destruct (falsy claudeInput); [reflexivity |].
    destruct (generateWithGeminiPro _ w0) as [[t | e | | code |] w1]; reflexivity.
Qed.

Lemma synthesisHandler_run `{Engine} prompt (history : list BrainstormRound) (w : World) :
  synthesisHandler prompt history w =
    boundary "Error in brainstorm synthesis: "
      (generateWithGeminiPro (synthesisPrompt prompt history)
         (emit (EvLog ConsoleLog "Creating brainstorm synthesis with Gemini") w)).
Proof.
  unfold synthesisHandler, synthesisTry, synthesisCatch, boundary, log.
  cbn -[generateWithGeminiPro synthesisPrompt emit append].
  destruct (generateWithGeminiPro _ _) as [[t | e | | code |] w1]; reflexivity.
Qed.

(** One generation call behind the boundary, in a world where [pre] has just
    been logged: a single request goes out whatever the upstream answers,
    a text answer comes back as it is, a failure as an error payload. *)
Lemma boundary_generate `{Engine} label prompt ch pre (w : World) (m : string) :
  geminiProModel w = Some m ->
  let r := GenerateContent m prompt in
  let res := boundary label (generateWithGeminiPro prompt (emit (EvLog ch pre) w)) in
  issued w (snd res) = [r]
  /\ sameSetup w (snd res)
  /\ contained (fst res)
  /\ (forall d t, nextReply w r = After d (Fulfilled (WithText t)) ->
      fst res = Done (textResult t))
  /\ (forall e, failsWith (nextReply w r) e ->
      fst res = Done (errorResult ("Error: " ++ errorMessage e)))
  /\ (nextReply w r = NoReply -> fst res = Pending).
Proof.
  intros Hm r res. subst res.
  rewrite (generateWithGeminiPro_run prompt _ m) by exact Hm.
  fold r. rewrite nextReply_log.
  destruct (nextReply w r) as [d [[| t | e] | e] |]; cbn [boundary fst snd].
  all: repeat split; try (intros; discriminate); try exact I;
    try (erewrite issued_app; [| cbn; rewrite <- ?app_assoc; reflexivity]; reflexivity).
  all: try (intros ? ? [= <- <-]; reflexivity).
  all: try (intros ? Hf; inversion Hf; subst; reflexivity).
Qed.

Lemma boundary_unready `{Engine} label prompt ch pre (w : World) :
  geminiProModel w = None ->
  let res := boundary label (generateWithGeminiPro prompt (emit (EvLog ch pre) w)) in
  fst res = Done (errorResult ("Error: " ++ typeErrorMessage "generateContent"))
  /\ issued w (snd res) = []
  /\ sameSetup w (snd res).
Proof.
  intros Hm res. subst res.
  rewrite generateWithGeminiPro_unready by exact Hm.
  cbn [boundary fst snd]. repeat split.
  erewrite issued_app; [| cbn; rewrite <- ?app_assoc; reflexivity]. reflexivity.
Qed.

Lemma sameSetup_refl (w : World) : sameSetup w w.
Proof. repeat split. Qed.

Lemma sameSetup_log (ch : Channel) (text : string) (w : World) :
  sameSetup w (emit (EvLog ch text) w).
Proof. repeat split. Qed.

Lemma stubReturning_sameSetup (t : string) (w w' : World) :
  sameSetup w w' -> stubReturning t w -> stubReturning t w'.
Proof.
  intros (_ & Hu & _) Hs before model prompt. rewrite Hu. apply Hs.
Qed.

(** Against a stub the outcome of a round is a function of the arguments
    and of whether the client was initialised. *)
Lemma brainstormHandler_stub `{Engine} prompt round claudeInput history t (w : World) :
  stubReturning t w ->
  let res := brainstormHandler prompt round claudeInput history w in
  sameSetup w (snd res)
  /\ fst res =
       if negb (strictEq round one) && falsy claudeInput then
         Done (errorResult "Error: Claude's input is required for rounds after the first one")
       else match geminiProModel w with
            | Some _ => Done (textResult t)
            | None => Done (errorResult ("Error: " ++ typeErrorMessage "generateContent"))
            end.
Proof.
  intros Hs res. subst res. rewrite brainstormHandler_run.
  assert (G : forall label prompt' ch pre,
             let res := boundary label
                          (generateWithGeminiPro prompt' (emit (EvLog ch pre) w)) in
             sameSetup w (snd res)
             /\ fst res = match geminiProModel w with
                          | Some _ => Done (textResult t)
                          | None => Done (errorResult
                                            ("Error: " ++ typeErrorMessage "generateContent"))
                          end).
  { intros label prompt' ch pre res.
    destruct (geminiProModel w) as [m |] eqn:Hm.
    - destruct (boundary_generate label prompt' ch pre w m Hm)
        as (_ & Hsame & _ & Htext & _).
      split; [exact Hsame |].
      destruct (Hs (requestsOf (trace w)) m prompt') as [d Hd].
      exact (Htext d t Hd).
    - destruct (boundary_unready label prompt' ch pre w Hm) as (Hout & _ & Hsame).
      split; assumption. }
  destruct (strictEq round one); cbn [negb andb].
  - apply G.
  - destruct (falsy claudeInput).
    + split; [apply sameSetup_log | reflexivity].
    + apply G.
Qed.

(* ===================================================================== *)
(** * The brainstorm tool                                                 *)
(* ===================================================================== *)

(** C6. A call with [round === 1] makes exactly one upstream request, on
    the Pro handle, whatever the caller input and the history are (both may
    be absent).  Its prompt is a fixed text around the problem statement,
    so it contains the problem text and nothing of a transcript, and the
    text the model answers is returned as it is. *)
Theorem round_one_shape `{Engine} prompt round claudeInput history
    (w : World) (m : string) :
  strictEq round one = true ->
  geminiProModel w = Some m ->
  let r := GenerateContent m (initialPrompt prompt) in
  let res := brainstormHandler prompt round claudeInput history w in
  issued w (snd res) = [r]
  /\ contains (initialPrompt prompt) prompt
  /\ (exists header footer, forall p, initialPrompt p = header ++ p ++ footer)
  /\ (forall d t, nextReply w r = After d (Fulfilled (WithText t)) ->
      fst res = Done (textResult t))
  /\ (forall t', textResult t'
                 = {| content := [ {| type := "text"; text := t' |} ]; isError := None |}).
Proof.
  intros Hone Hm r res. subst res. rewrite brainstormHandler_run, Hone.
  destruct (boundary_generate "Error in brainstorming: " (initialPrompt prompt)
              ConsoleLog ("Brainstorming round " ++ numberToString round ++ " with Gemini")
              w m Hm) as (Hissued & _ & _ & Htext & _).
  split; [| split; [| split; [| split; [| intros t'; reflexivity]]]].
  - exact Hissued.
  - unfold initialPrompt, lines. apply contains_concat. do 5 right. left. reflexivity.
  - exists (lines [ "";
        "You are participating in a collaborative brainstorming session with Claude, another AI assistant.";
        "Together, you will create a plan to address the following request:";
        "";
        "---";
        "" ]).
    exists (lines [ "";
        "---";
        "";
        "Please provide your initial thoughts, considering:";
        "1. How you would approach this problem";
        "2. What information or resources you might need";
        "3. Any challenges you anticipate";
        "4. The steps you would take to implement a solution";
        "";
        "Remember, this is the first round of a collaborative discussion, so focus on sharing your initial perspective rather than a complete solution.";
        "" ]).
    intros p. reflexivity.
  - exact Htext.
Qed.

Lemma round_one_shape_witness :
  issued (Node.ready (Node.answering "A"))
    (snd (brainstormHandler (H := Node.engine) "Build a todo app" 1%Z None None
            (Node.ready (Node.answering "A"))))
    = [GenerateContent "gemini-2.5-pro-preview-03-25"
         (initialPrompt "Build a todo app")]
  /\ fst (brainstormHandler (H := Node.engine) "Build a todo app" 1%Z None None
            (Node.ready (Node.answering "A")))
     = Done (textResult "A")
  /\ textResult "A"
     = {| content := [ {| type := "text"; text := "A" |} ]; isError := None |}.
Proof.
  destruct (round_one_shape (H := Node.engine) "Build a todo app" 1%Z None None
              (Node.ready (Node.answering "A")) "gemini-2.5-pro-preview-03-25"
              eq_refl eq_refl) as (Hissued & _ & _ & Htext & Hpayload).
  split; [exact Hissued |].
  split; [exact (Htext 40%N "A" eq_refl) | exact (Hpayload "A")].
Defined.

(** C4. When the round is not the first and the caller input is absent
    (or the empty string), the handler returns the error payload
    "Claude's input is required", flagged [isError], as an ordinary result;
    nothing is thrown and no upstream request is made. *)
Theorem later_round_requires_input `{Engine} prompt round claudeInput history
    (w : World) :
  strictEq round one = false ->
  falsy claudeInput = true ->
  let res := brainstormHandler prompt round claudeInput history w in
  fst res = Done (errorResult
                    "Error: Claude's input is required for rounds after the first one")
  /\ (forall r, fst res = Done r -> isError r = Some true)
  /\ issued w (snd res) = []
  /\ sameSetup w (snd res).
Proof.
  intros Hround Hinput res. subst res.
  rewrite brainstormHandler_run, Hround, Hinput. cbn [fst snd].
  repeat split.
  - intros r [= <-]. reflexivity.
  - erewrite issued_app; [| cbn; reflexivity]. reflexivity.
Qed.

Lemma later_round_requires_input_witness :
  fst (brainstormHandler (H := Node.engine) "Build a todo app" 2%Z None
         (Some [Node.roundOne]) (Node.ready (Node.answering "B")))
    = Done (errorResult
              "Error: Claude's input is required for rounds after the first one")
  /\ issued (Node.ready (Node.answering "B"))
       (snd (brainstormHandler (H := Node.engine) "Build a todo app" 2%Z None
               (Some [Node.roundOne]) (Node.ready (Node.answering "B"))))
     = [].
Proof.
  destruct (later_round_requires_input (H := Node.engine) "Build a todo app" 2%Z None
              (Some [Node.roundOne]) (Node.ready (Node.answering "B"))
              eq_refl eq_refl) as (Hout & _ & Hissued & _).
  split; [exact Hout | exact Hissued].
Defined.

(** C1, as the code has it.  The synthesis handler makes exactly one upstream
    request for every history, the empty one included: an empty history is
    not refused, its transcript is the empty string, and the answer of the
    model is returned as an ordinary text result. *)
Theorem synthesis_always_calls_upstream `{Engine} prompt
    (history : list BrainstormRound) (w : World) (m : string) :
  geminiProModel w = Some m ->
  let r := GenerateContent m (synthesisPrompt prompt history) in
  let res := synthesisHandler prompt history w in
  issued w (snd res) = [r]
  /\ (forall d t, nextReply w r = After d (Fulfilled (WithText t)) ->
      fst res = Done (textResult t))
  /\ historyText (@nil BrainstormRound) = ""
  /\ (forall t', textResult t'
                 = {| content := [ {| type := "text"; text := t' |} ]; isError := None |}).
Proof.
  intros Hm r res. subst res. rewrite synthesisHandler_run.
  destruct (boundary_generate "Error in brainstorm synthesis: "
              (synthesisPrompt prompt history) ConsoleLog
              "Creating brainstorm synthesis with Gemini" w m Hm)
    as (Hissued & _ & _ & Htext & _).
  split; [exact Hissued |]. split; [exact Htext |].
  split; [reflexivity | intros t'; reflexivity].
Qed.

Lemma synthesis_always_calls_upstream_witness :
  issued (Node.ready (Node.answering "PLAN"))
    (snd (synthesisHandler (H := Node.engine) "Build a todo app" [Node.roundOne]
            (Node.ready (Node.answering "PLAN"))))
    = [GenerateContent "gemini-2.5-pro-preview-03-25"
         (synthesisPrompt "Build a todo app" [Node.roundOne])]
  /\ fst (synthesisHandler (H := Node.engine) "Build a todo app" [Node.roundOne]
            (Node.ready (Node.answering "PLAN")))
     = Done (textResult "PLAN")
  /\ textResult "PLAN"
     = {| content := [ {| type := "text"; text := "PLAN" |} ]; isError := None |}.
Proof.
  destruct (synthesis_always_calls_upstream (H := Node.engine) "Build a todo app"
              [Node.roundOne] (Node.ready (Node.answering "PLAN"))
              "gemini-2.5-pro-preview-03-25" eq_refl) as (Hissued & Htext & _ & Hpayload).
  split; [exact Hissued |].
  split; [exact (Htext 40%N "PLAN" eq_refl) | exact (Hpayload "PLAN")].
Defined.

(** C1, as the specification words it, fails on the empty history: the
    handler does not answer with an error payload and it does make an
    upstream request. *)
Lemma synthesis_empty_history_counterexample :
  fst (synthesisHandler (H := Node.engine) "Build a todo app" []
         (Node.ready (Node.answering "PLAN")))
    = Done {| content := [ {| type := "text"; text := "PLAN" |} ]; isError := None |}
  /\ isError (textResult "PLAN") = None
  /\ issued (Node.ready (Node.answering "PLAN"))
       (snd (synthesisHandler (H := Node.engine) "Build a todo app" []
               (Node.ready (Node.answering "PLAN"))))
     = [GenerateContent "gemini-2.5-pro-preview-03-25"
          (synthesisPrompt (H := Node.engine) "Build a todo app" [])]
  /\ ~ ((exists r, fst (synthesisHandler (H := Node.engine) "Build a todo app" []
                          (Node.ready (Node.answering "PLAN"))) = Done r
                   /\ isError r = Some true)
        /\ issued (Node.ready (Node.answering "PLAN"))
             (snd (synthesisHandler (H := Node.engine) "Build a todo app" []
                     (Node.ready (Node.answering "PLAN"))))
           = []).
Proof.
  assert (E : fst (synthesisHandler (H := Node.engine) "Build a todo app" []
                     (Node.ready (Node.answering "PLAN")))
              = Done (textResult "PLAN")) by (vm_compute; reflexivity).
  split; [exact E |].
  split; [reflexivity |].
  split; [vm_compute; reflexivity |].
  rewrite E. intros [(r & [= <-] & Hflag) _]. discriminate Hflag.
Qed.

(** C7. A failure of the generation call never leaves a handler: the
    promise of either handler is never rejected, whatever the arguments and
    the world.  When the upstream call fails with [e] (it is rejected, or
    the result has no readable text), the brainstorm round and the synthesis
    return the payload "Error: " followed by the message of [e], with
    [isError] set; the same holds when the client was never initialised. *)
Theorem failures_become_error_payloads `{Engine} prompt round claudeInput history
    (synthesisHistory : list BrainstormRound) (w : World) :
  let h := match history with Some h => h | None => [] end in
  let rnd := brainstormHandler prompt round claudeInput history w in
  let syn := synthesisHandler prompt synthesisHistory w in
  (contained (fst rnd) /\ contained (fst syn))
  /\ (forall m e,
        geminiProModel w = Some m ->
        strictEq round one = true ->
        failsWith (nextReply w (GenerateContent m (initialPrompt prompt))) e ->
        fst rnd = Done (errorResult ("Error: " ++ errorMessage e)))
  /\ (forall m e,
        geminiProModel w = Some m ->
        strictEq round one = false ->
        falsy claudeInput = false ->
        failsWith (nextReply w (GenerateContent m
                     (collaborationPrompt prompt round (valueOf claudeInput) h))) e ->
        fst rnd = Done (errorResult ("Error: " ++ errorMessage e)))
  /\ (forall m e,
        geminiProModel w = Some m ->
        failsWith (nextReply w (GenerateContent m
                     (synthesisPrompt prompt synthesisHistory))) e ->
        fst syn = Done (errorResult ("Error: " ++ errorMessage e)))
  /\ (geminiProModel w = None ->
        fst syn = Done (errorResult ("Error: " ++ typeErrorMessage "generateContent")))
  /\ (forall t, isError (errorResult t) = Some true
                /\ content (errorResult t) = [ {| type := "text"; text := t |} ]).
Proof.
  intros h rnd syn. subst rnd syn.
  rewrite brainstormHandler_run, synthesisHandler_run. fold h.
  assert (C : forall label p ch pre,
             contained (fst (boundary label
                               (generateWithGeminiPro p (emit (EvLog ch pre) w))))).
  { intros label p ch pre. destruct (geminiProModel w) as [m |] eqn:Hm.
    - now destruct (boundary_generate label p ch pre w m Hm) as (_ & _ & Hc & _).
    - destruct (boundary_unready label p ch pre w Hm) as (-> & _). exact I. }
  split; [split |].
  - destruct (strictEq round one); [apply C |].
    destruct (falsy claudeInput); [exact I | apply C].
  - apply C.
  - split; [| split; [| split; [| split]]].
    + intros m e Hm -> Hf.
      now destruct (boundary_generate "Error in brainstorming: " (initialPrompt prompt)
                      ConsoleLog ("Brainstorming round " ++ numberToString round
                                  ++ " with Gemini") w m Hm)
        as (_ & _ & _ & _ & Hfail & _); apply Hfail.
    + intros m e Hm -> -> Hf.
      now destruct (boundary_generate "Error in brainstorming: "
                      (collaborationPrompt prompt round (valueOf claudeInput) h)
                      ConsoleLog ("Brainstorming round " ++ numberToString round
                                  ++ " with Gemini") w m Hm)
        as (_ & _ & _ & _ & Hfail & _); apply Hfail.
    + intros m e Hm Hf.
      now destruct (boundary_generate "Error in brainstorm synthesis: "
                      (synthesisPrompt prompt synthesisHistory) ConsoleLog
                      "Creating brainstorm synthesis with Gemini" w m Hm)
        as (_ & _ & _ & _ & Hfail & _); apply Hfail.
    + intros Hm.
      now destruct (boundary_unready "Error in brainstorm synthesis: "
                      (synthesisPrompt prompt synthesisHistory) ConsoleLog
                      "Creating brainstorm synthesis with Gemini" w Hm) as (-> & _).
    + intros t. split; reflexivity.
Qed.

Lemma failures_become_error_payloads_witness :
  (fst (brainstormHandler (H := Node.engine) "Build a todo app" 1%Z None None
          (Node.ready (Node.rejecting (ErrorObj "quota exceeded"))))
     = Done (errorResult "Error: quota exceeded")
   /\ fst (synthesisHandler (H := Node.engine) "Build a todo app" [Node.roundOne]
             (Node.ready (Node.rejecting (ErrorObj "quota exceeded"))))
      = Done (errorResult "Error: quota exceeded"))
  /\ fst (brainstormHandler (H := Node.engine) "Build a todo app" 2%Z (Some "Y")
            (Some [Node.roundOne])
            (Node.ready (Node.rejecting (NonError "socket hang up"))))
     = Done (errorResult "Error: socket hang up")
  /\ fst (synthesisHandler (H := Node.engine) "Build a todo app" [Node.roundOne]
            (Node.fresh (Node.answering "PLAN")))
     = Done (errorResult
               "Error: Cannot read properties of undefined (reading 'generateContent')").
Proof.
  split; [| split].
  - destruct (failures_become_error_payloads (H := Node.engine) "Build a todo app"
                1%Z None None [Node.roundOne]
                (Node.ready (Node.rejecting (ErrorObj "quota exceeded"))))
      as (_ & Hfirst & _ & Hsyn & _).
    split.
    + apply (Hfirst "gemini-2.5-pro-preview-03-25" (ErrorObj "quota exceeded")
               eq_refl eq_refl).
      apply (fails_rejected (H := Node.engine)).
    + apply (Hsyn "gemini-2.5-pro-preview-03-25" (ErrorObj "quota exceeded") eq_refl).
      apply (fails_rejected (H := Node.engine)).
  - destruct (failures_become_error_payloads (H := Node.engine) "Build a todo app"
                2%Z (Some "Y") (Some [Node.roundOne]) [Node.roundOne]
                (Node.ready (Node.rejecting (NonError "socket hang up"))))
      as (_ & _ & Hlater & _).
    apply (Hlater "gemini-2.5-pro-preview-03-25" (NonError "socket hang up")
             eq_refl eq_refl eq_refl).
    apply (fails_rejected (H := Node.engine)).
  - destruct (failures_become_error_payloads (H := Node.engine) "Build a todo app"
                1%Z None None [Node.roundOne] (Node.fresh (Node.answering "PLAN")))
      as (_ & _ & _ & _ & Hunready & _).
    exact (Hunready eq_refl).
Defined.

(** C8. A brainstorm round keeps no state of its own.  Against a stub that
    answers every generation call with the same text, calling the handler
    twice in a row with the same arguments gives the same outcome; so does
    calling it in any other world with that stub and the same Pro handle.
    A call changes nothing in the world but the clock and the trace. *)
Theorem rounds_are_stateless `{Engine} prompt round claudeInput history t
    (w : World) :
  stubReturning t w ->
  let first := brainstormHandler prompt round claudeInput history w in
  let second := brainstormHandler prompt round claudeInput history (snd first) in
  fst second = fst first
  /\ sameSetup w (snd first)
  /\ sameSetup (snd first) (snd second)
  /\ (forall w2, stubReturning t w2 -> geminiProModel w2 = geminiProModel w ->
      fst (brainstormHandler prompt round claudeInput history w2) = fst first).
Proof.
  intros Hs first second. subst first second.
  destruct (brainstormHandler_stub prompt round claudeInput history t w Hs)
    as (Hsame & Hout).
  pose proof (stubReturning_sameSetup t _ _ Hsame Hs) as Hs'.
  destruct (brainstormHandler_stub prompt round claudeInput history t _ Hs')
    as (Hsame' & Hout').
  assert (Hpro : geminiProModel (snd (brainstormHandler prompt round claudeInput
                                        history w)) = geminiProModel w)
    by (destruct Hsame as (_ & _ & _ & _ & Hp & _); exact Hp).
  repeat split; try apply Hsame; try apply Hsame'.
  - rewrite Hout', Hout, Hpro. reflexivity.
  - intros w2 Hs2 Hp2.
    destruct (brainstormHandler_stub prompt round claudeInput history t w2 Hs2)
      as (_ & Hout2).
    rewrite Hout2, Hout, Hp2. reflexivity.
Qed.

Lemma rounds_are_stateless_witness :
  fst (brainstormHandler (H := Node.engine) "Build a todo app" 2%Z (Some "Y")
         (Some [Node.roundOne])
         (snd (brainstormHandler (H := Node.engine) "Build a todo app" 2%Z (Some "Y")
                 (Some [Node.roundOne]) (Node.ready (Node.answering "B")))))
  = fst (brainstormHandler (H := Node.engine) "Build a todo app" 2%Z (Some "Y")
           (Some [Node.roundOne]) (Node.ready (Node.answering "B"))).
Proof.
  destruct (rounds_are_stateless (H := Node.engine) "Build a todo app" 2%Z (Some "Y")
              (Some [Node.roundOne]) "B" (Node.ready (Node.answering "B"))
              (fun _ _ _ => ex_intro _ 40%N eq_refl)) as (Hsame & _).
  exact Hsame.
Defined.

(* ===================================================================== *)
(** * The transcript                                                      *)
(* ===================================================================== *)

Lemma renderEntry_length `{Engine} (entry : BrainstormRound) :
  String.length (renderEntry entry)
  = 37 + String.length (numberToString (round entry))
    + String.length (substring (claudeInput entry) 0 500)
    + String.length (substring (geminiResponse entry) 0 500).
Proof.
  rewrite renderEntry_shape. rewrite !length_append. cbn [String.length nl]. lia.
Qed.

Lemma length_concat_bound (sep : string) (xs : list string) :
  String.length (String.concat sep xs)
  <= list_sum (map (fun x => String.length x + String.length sep) xs).
Proof.
  induction xs as [| x [| y ys] IH].
  - cbn. lia.
  - cbn. lia.
  - change (String.concat sep (x :: y :: ys))
      with (x ++ sep ++ String.concat sep (y :: ys)).
    rewrite !length_append. unfold list_sum in *. cbn [map fold_right] in *. lia.
Qed.

(** The transcript takes at most 1038 characters and the rendered round
    number for each entry, whatever the length of the texts. *)
Lemma historyText_length_bound `{Engine} (history : list BrainstormRound) :
  String.length (historyText history)
  <= list_sum (map (fun entry =>
                      1038 + String.length (numberToString (Brainstorm.round entry)))
                 history).
Proof.
  unfold historyText, join.
  eapply Nat.le_trans; [apply length_concat_bound |].
  rewrite map_map.
  unfold list_sum.
  induction history as [| entry rest IH]; cbn [map fold_right]; [lia |].
  rewrite renderEntry_length, !substring_0_length.
  cbn [String.length nl] in *. lia.
Qed.

(** C3. Every entry of the history appears in the transcript as the lines
    "Round n:", "- Claude: c..." and "- Gemini: g...", where [c] is the
    prefix of the entry's caller text of length [min 500 (its length)] and
    [g] the like prefix of its model text, each cut on its own; so an entry
    takes 37 characters, its round number and at most 500 characters of
    either text.  The transcript is part of the prompt sent by a later round
    and of the prompt sent by the synthesis.  The transcript is these
    renderings joined by newlines and nothing more, so its length is at most
    1038 characters and the round number for each entry; and either prompt is
    a fixed text around the round number, the problem, the transcript and the
    caller input, so the texts of the history reach the model only cut. *)
Theorem transcript_truncation `{Engine} prompt round input
    (history : list BrainstormRound) entry (w : World) (m : string) :
  In entry history ->
  geminiProModel w = Some m ->
  strictEq round one = false ->
  falsy (Some input) = false ->
  let c := substring (claudeInput entry) 0 500 in
  let g := substring (geminiResponse entry) 0 500 in
  ((exists rest, claudeInput entry = c ++ rest)
   /\ String.length c = Nat.min 500 (String.length (claudeInput entry)))
  /\ ((exists rest, geminiResponse entry = g ++ rest)
      /\ String.length g = Nat.min 500 (String.length (geminiResponse entry)))
  /\ renderEntry entry
     = nl ++ "Round " ++ numberToString (Brainstorm.round entry) ++ ":" ++ nl
          ++ "- Claude: " ++ c ++ "..." ++ nl
          ++ "- Gemini: " ++ g ++ "..." ++ nl
  /\ String.length (renderEntry entry)
     <= 1037 + String.length (numberToString (Brainstorm.round entry))
  /\ contains (historyText history) (renderEntry entry)
  /\ (contains (collaborationPrompt prompt round input history) (historyText history)
      /\ issued w (snd (brainstormHandler prompt round (Some input) (Some history) w))
         = [GenerateContent m (collaborationPrompt prompt round input history)])
  /\ (contains (synthesisPrompt prompt history) (historyText history)
      /\ issued w (snd (synthesisHandler prompt history w))
         = [GenerateContent m (synthesisPrompt prompt history)])
  /\ (forall entries,
        historyText entries = String.concat nl (map renderEntry entries)
        /\ String.length (historyText entries)
           <= list_sum (map (fun e => 1038 + String.length
                                               (numberToString (Brainstorm.round e)))
                          entries))
  /\ (exists p1 p2 p3 p4 p5,
        forall prompt' round' input' first rest,
          collaborationPrompt prompt' round' input' (first :: rest)
          = p1 ++ numberToString round' ++ p2 ++ prompt' ++ p3
               ++ historyText (first :: rest) ++ p4 ++ input' ++ p5)
  /\ (exists s1 s2 s3,
        forall prompt' entries,
          synthesisPrompt prompt' entries
          = s1 ++ prompt' ++ s2 ++ historyText entries ++ s3).
Proof.
  intros Hin Hm Hround Hinput c g. subst c g.
  split; [split; [apply substring_0_prefix | apply substring_0_length] |].
  split; [split; [apply substring_0_prefix | apply substring_0_length] |].
  split; [apply renderEntry_shape |].
  split.
  { rewrite renderEntry_length, !substring_0_length. lia. }
  split; [now apply historyText_contains |].
  split; [split |].
  { apply collaborationPrompt_contains_historyText.
    intros ->. destruct Hin. }
  { rewrite brainstormHandler_run, Hround, Hinput.
    now destruct (boundary_generate "Error in brainstorming: "
                    (collaborationPrompt prompt round input history) ConsoleLog
                    ("Brainstorming round " ++ numberToString round ++ " with Gemini")
                    w m Hm) as (Hissued & _). }
  split; [split |].
  { apply synthesisPrompt_contains_historyText. }
  { rewrite synthesisHandler_run.
    now destruct (boundary_generate "Error in brainstorm synthesis: "
                    (synthesisPrompt prompt history) ConsoleLog
                    "Creating brainstorm synthesis with Gemini" w m Hm)
      as (Hissued & _). }
  split; [| split].
  - intros entries. split; [reflexivity | apply historyText_length_bound].
  - exists (lines [ ""; "You are in round " ]).
    exists (lines [ " of a collaborative brainstorming session about this request:";
                    ""; "---"; "" ]).
    exists (lines [ ""; "---"; ""; "Here's a summary of the previous rounds:"; "" ]).
    exists (lines [ ""; ""; "Claude's latest perspective:"; "" ]).
    exists (lines [ ""; "";
                    "Based on Claude's perspective and the previous discussion, please:";
                    "1. Identify areas where you agree with Claude";
                    "2. Note any valuable insights from Claude that you hadn't considered";
                    "3. Respectfully point out any potential issues with Claude's approach";
                    "4. Build upon both your ideas to refine the approach";
                    "5. Suggest concrete next steps or details to consider";
                    "";
                    "Remember, this is a collaborative process to develop the best possible solution.";
                    "" ]).
    intros prompt' round' input' first rest.
    unfold collaborationPrompt, lines. cbn [String.concat length Nat.ltb Nat.leb].
    rewrite !append_assoc. reflexivity.
  - exists (lines [ "";
                    "You've participated in a collaborative brainstorming session with Claude about this request:";
                    ""; "---"; "" ]).
    exists (lines [ ""; "---"; ""; "Here's the complete conversation history:"; "" ]).
    exists (lines [ ""; "";
                    "Based on this collaborative discussion, please provide:";
                    "1. A comprehensive synthesis of the best ideas from both assistants";
                    "2. A clear, step-by-step plan to address the user's request";
                    "3. Required resources, tools, or information needed";
                    "4. Any potential challenges and how to address them";
                    "5. A conclusion summarizing the unified approach";
                    "";
                    "Present this as a unified final plan that represents the best collaborative thinking of both assistants.";
                    "" ]).
    intros prompt' entries.
    unfold synthesisPrompt, lines. cbn [String.concat].
    rewrite !append_assoc. reflexivity.
Qed.

Lemma transcript_truncation_witness :
  renderEntry (H := Node.engine)
    {| round := (7%Z : @number Node.engine);
       claudeInput := Node.longText; geminiResponse := "A" |}
  = nl ++ "Round 7:" ++ nl
       ++ "- Claude: " ++ substring Node.longText 0 500 ++ "..." ++ nl
       ++ "- Gemini: A..." ++ nl
  /\ String.length (substring Node.longText 0 500)
     = Nat.min 500 (String.length Node.longText)
  /\ String.length
       (historyText (H := Node.engine)
          [ {| round := (7%Z : @number Node.engine);
               claudeInput := Node.longText; geminiResponse := "A" |} ])
     <= 1039.
Proof.
  destruct (transcript_truncation (H := Node.engine) "Build a todo app" 2%Z "Y"
              [ {| round := (7%Z : @number Node.engine);
                   claudeInput := Node.longText; geminiResponse := "A" |} ]
              {| round := (7%Z : @number Node.engine);
                 claudeInput := Node.longText; geminiResponse := "A" |}
              (Node.ready (Node.answering "B")) "gemini-2.5-pro-preview-03-25"
              (or_introl eq_refl) eq_refl eq_refl eq_refl)
    as ((_ & Hlen) & _ & Hshape & _ & _ & _ & _ & Hwhole & _).
  split; [exact Hshape |]. split; [exact Hlen |].
  exact (proj2 (Hwhole [ {| round := (7%Z : @number Node.engine);
                            claudeInput := Node.longText; geminiResponse := "A" |} ])).
Defined.

(** C9. The marker "..." follows each rendered field whether or not the
    field was cut: a caller text of at most 500 characters is rendered whole
    and followed by "...", and so is a model text of at most 500
    characters. *)
Theorem elision_marker_always_appended `{Engine} (entry : BrainstormRound) :
  (String.length (claudeInput entry) <= 500 ->
   renderEntry entry
   = (nl ++ "Round " ++ numberToString (Brainstorm.round entry) ++ ":" ++ nl)
       ++ ("- Claude: " ++ claudeInput entry ++ "...") ++ nl
       ++ "- Gemini: " ++ substring (geminiResponse entry) 0 500 ++ "..." ++ nl)
  /\ (String.length (geminiResponse entry) <= 500 ->
      renderEntry entry
      = (nl ++ "Round " ++ numberToString (Brainstorm.round entry) ++ ":" ++ nl
            ++ "- Claude: " ++ substring (claudeInput entry) 0 500 ++ "..." ++ nl)
          ++ ("- Gemini: " ++ geminiResponse entry ++ "...") ++ nl)
  /\ (forall history, In entry history ->
      contains (historyText history) (renderEntry entry)).
Proof.
  split; [| split].
  - intros L. rewrite renderEntry_shape, (substring_0_short _ _ L).
    rewrite !append_assoc. reflexivity.
  - intros L. rewrite renderEntry_shape, (substring_0_short _ _ L).
    rewrite !append_assoc. reflexivity.
  - intros history. apply historyText_contains.
Qed.

Lemma elision_marker_always_appended_witness :
  renderEntry Node.roundOne
  = (nl ++ "Round 1:" ++ nl) ++ "- Claude: X..." ++ nl ++ "- Gemini: A..." ++ nl
  /\ contains (historyText [Node.roundOne]) (renderEntry Node.roundOne).
Proof.
  destruct (elision_marker_always_appended (H := Node.engine) Node.roundOne)
    as (Hclaude & _ & Hin).
  split.
  - exact (Hclaude (proj1 (Nat.leb_le 1 500) eq_refl)).
  - exact (Hin [Node.roundOne] (or_introl eq_refl)).
Defined.

(* ===================================================================== *)
(** * The connection test                                                 *)
(* ===================================================================== *)

Lemma race_deadline {A} (tie : bool) (t d : N) (s : Settlement A) (e : Thrown) :
  race tie (SettlesAt (t + d) s) (SettlesAt (t + 10000) (Rejected e))
  = if inTime tie 10000 d then SettlesAt (t + d) s
    else SettlesAt (t + 10000) (Rejected e).
Proof.
  unfold race, inTime.
  destruct (N.ltb_spec (t + d) (t + 10000)), (N.ltb_spec d 10000); try lia;
    cbn [orb]; [reflexivity |].
  destruct (N.ltb_spec (t + 10000) (t + d)), (N.eqb_spec d 10000); try lia;
    cbn [andb]; [reflexivity |].
  destruct tie; reflexivity.
Qed.

Lemma firstOnTie_emit (e : Event) (w : World) : firstOnTie (emit e w) = firstOnTie w.
Proof. reflexivity. Qed.

(** One run of the [try] block, by the answer of the upstream. *)
Lemma testConnection_run `{Engine} pro flash (a : nat) (w : World) :
  geminiFlashModel w = Some flash ->
  let r := GenerateContent flash "Test connection" in
  let sent := attemptSent flash a w in
  let connected d :=
    emit (EvLog LogInfo ("Flash model: " ++ flash))
      (emit (EvLog LogInfo ("Pro model: " ++ pro))
         (emit (EvLog LogInfo "Successfully connected to Gemini API")
            (advanceTo (now w + d) sent))) in
  let timedOut :=
    (Raised (ErrorObj "Connection timeout"), advanceTo (now w + 10000) sent) in
  testConnection pro flash a w =
    match nextReply w r with
    | After d s =>
        if inTime (firstOnTie w) 10000 d then
          match s with
          | Fulfilled NoResult =>
              (Raised (ErrorObj "Failed to connect to Gemini API: empty response"),
               advanceTo (now w + d) sent)
          | Fulfilled (WithText _) => (Done true, connected d)
          | Fulfilled (TextThrows _) => (Done true, connected d)
          | Rejected e => (Raised e, advanceTo (now w + d) sent)
          end
        else timedOut
    | NoReply => timedOut
    end.
Proof.
  intros Hf r sent connected timedOut. unfold nextReply.
  unfold testConnection, generateContent, callUpstream, getFlashModel, rejectAfter,
    promiseRace, log.
  cbn -[race N.add N.max natToString append inTime Nat.leb].
  rewrite Hf. rewrite !requestsOf_app. cbn [requestsOf]. rewrite !app_nil_r.
  fold r.
  destruct (upstream w (requestsOf (trace w)) r) as [d s |].
  - rewrite race_deadline, !firstOnTie_emit.
    destruct (inTime (firstOnTie w) 10000 d); [| reflexivity].
    destruct s as [[| t | e] | e]; reflexivity.
  - reflexivity.
Qed.

(** One round of the loop: the [try] block and, on a failure, the [catch]
    block.  The verdict on the upstream's answer decides the outcome; the
    round makes one request and, when it fails with attempts left, pauses
    for 2 seconds. *)
Lemma attempt_step `{Engine} pro flash (connected : bool) (a : nat) (w : World) :
  geminiFlashModel w = Some flash ->
  let r := GenerateContent flash "Test connection" in
  let v := validationFailure (firstOnTie w) (nextReply w r) in
  exists w' evs,
    catch (testConnection pro flash a) (connectionFailed connected a) w
    = (match v with
       | None => Done true
       | Some msg =>
           if (maxAttempts <=? a)%nat
           then Raised (ErrorObj ("Failed to connect to Gemini API after 3 attempts: "
                                  ++ msg))
           else Done connected
       end, w')
    /\ sameSetup w w'
    /\ trace w' = (trace w ++ evs)%list
    /\ requestsOf evs = [r]
    /\ actionsOf evs
       = Call r :: match v with
                   | None => []
                   | Some _ => if (maxAttempts <=? a)%nat then [] else [Pause 2000]
                   end.
Proof.
  intros Hf r v. subst v.
  cbn [catch Exc_Async]. rewrite (testConnection_run pro flash a w Hf). fold r.
  assert (Failed : forall e (w1 : World) evs1,
    sameSetup w w1 -> trace w1 = (trace w ++ evs1)%list ->
    requestsOf evs1 = [r] -> actionsOf evs1 = [Call r] ->
    exists w' evs,
      connectionFailed connected a e w1
      = (if (maxAttempts <=? a)%nat
         then Raised (ErrorObj ("Failed to connect to Gemini API after 3 attempts: "
                                ++ errorMessage e))
         else Done connected, w')
      /\ sameSetup w w'
      /\ trace w' = (trace w ++ evs)%list
      /\ requestsOf evs = [r]
      /\ actionsOf evs
         = Call r :: (if (maxAttempts <=? a)%nat then [] else [Pause 2000])).
  { intros e w1 evs1 Hsame Htr Hreq Hact.
    unfold connectionFailed, log, sleep.
    cbn -[N.add N.max natToString append Nat.leb maxAttempts].
    destruct (maxAttempts <=? a)%nat; eexists; eexists.
    - split; [reflexivity |]. split; [exact Hsame |].
      split; [cbn; rewrite Htr, <- app_assoc; reflexivity |].
      rewrite requestsOf_app, actionsOf_app, Hreq, Hact. split; reflexivity.
    - split; [reflexivity |]. split; [exact Hsame |].
      split; [cbn; rewrite Htr, <- !app_assoc; reflexivity |].
      rewrite requestsOf_app, actionsOf_app, Hreq, Hact. split; reflexivity. }
  assert (Sent : forall t,
    sameSetup w (advanceTo t (attemptSent flash a w))
    /\ trace (advanceTo t (attemptSent flash a w))
       = (trace w ++ [EvLog LogInfo ("Connecting to Gemini API (attempt "
                                     ++ natToString a ++ "/" ++ natToString maxAttempts
                                     ++ ")...");
                      EvDeadline 10000; EvRequest r])%list).
  { intros t. split; [repeat split |]. cbn. rewrite <- !app_assoc. reflexivity. }
  assert (Ok : forall d,
    exists w' evs,
      (Done true,
       emit (EvLog LogInfo ("Flash model: " ++ flash))
         (emit (EvLog LogInfo ("Pro model: " ++ pro))
            (emit (EvLog LogInfo "Successfully connected to Gemini API")
               (advanceTo (now w + d) (attemptSent flash a w)))))
      = (@Done bool true, w')
      /\ sameSetup w w'
      /\ trace w' = (trace w ++ evs)%list
      /\ requestsOf evs = [r]
      /\ actionsOf evs = [Call r]).
  { intros d. eexists; eexists. split; [reflexivity |]. split; [repeat split |].
    split; [cbn; rewrite <- !app_assoc; reflexivity |]. split; reflexivity. }
  unfold validationFailure.
  destruct (nextReply w r) as [d s |].
  - destruct (inTime (firstOnTie w) 10000 d).
    + destruct s as [[| t | e] | e].
      * destruct (Sent (now w + d)%N) as (Hs & Ht).
        exact (Failed (ErrorObj "Failed to connect to Gemini API: empty response")
                 _ _ Hs Ht eq_refl eq_refl).
      * apply Ok.
      * apply Ok.
      * destruct (Sent (now w + d)%N) as (Hs & Ht).
        exact (Failed e _ _ Hs Ht eq_refl eq_refl).
    + destruct (Sent (now w + 10000)%N) as (Hs & Ht).
      exact (Failed (ErrorObj "Connection timeout") _ _ Hs Ht eq_refl eq_refl).
  - destruct (Sent (now w + 10000)%N) as (Hs & Ht).
    exact (Failed (ErrorObj "Connection timeout") _ _ Hs Ht eq_refl eq_refl).
Qed.

Lemma connectLoop_unfold `{Engine} pro flash (fuel a : nat) (w : World) :
  a < maxAttempts ->
  connectLoop pro flash (S fuel) false a w =
    match catch (testConnection pro flash (S a)) (connectionFailed false (S a)) w with
    | (Done c, w') => connectLoop pro flash fuel c (S a) w'
    | (Raised e, w') => (Raised e, w')
    | (Pending, w') => (Pending, w')
    | (Exited code, w') => (Exited code, w')
    | (Exhausted, w') => (Exhausted, w')
    end.
Proof.
  intros Ha. cbn [connectLoop negb andb].
  rewrite (proj2 (Nat.ltb_lt a maxAttempts) Ha). reflexivity.
Qed.

Lemma connectLoop_connected `{Engine} pro flash (fuel a : nat) (w : World) :
  connectLoop pro flash fuel true a w = (Done tt, w).
Proof. destruct fuel; reflexivity. Qed.

Lemma connectLoop_spent `{Engine} pro flash (fuel : nat) (c : bool) (a : nat) (w : World) :
  maxAttempts <= a -> connectLoop pro flash fuel c a w = (Done tt, w).
Proof.
  intros Ha.
  assert (E : (a <? maxAttempts)%nat = false) by now apply Nat.ltb_ge.
  destruct fuel; cbn [connectLoop]; rewrite E, andb_false_r; reflexivity.
Qed.

Lemma verdict_0 (w : World) (r : Request) :
  verdict w r 0 = validationFailure (firstOnTie w) (nextReply w r).
Proof.
  unfold verdict, nextReply. cbn [repeat]. now rewrite app_nil_r.
Qed.

Lemma verdict_shift (w w' : World) (r : Request) (evs : list Event) (k : nat) :
  sameSetup w w' -> trace w' = (trace w ++ evs)%list -> requestsOf evs = [r] ->
  verdict w' r k = verdict w r (S k).
Proof.
  intros (_ & Hu & Ht & _) Htr Hreq. unfold verdict.
  rewrite Hu, Ht, Htr, requestsOf_app, Hreq, <- app_assoc. reflexivity.
Qed.

Lemma sameSetup_trans (a b c : World) : sameSetup a b -> sameSetup b c -> sameSetup a c.
Proof.
  unfold sameSetup, sameHandles.
  intros (E1 & E2 & E3 & E4 & E5 & E6) (F1 & F2 & F3 & F4 & F5 & F6).
  repeat split; congruence.
Qed.

(** The loop, from any number of attempts already made: it makes [n] more
    requests, of which all but the last failed; it ends with the first
    success, or with the failure of attempt number 3. *)
Lemma connectLoop_run `{Engine} pro flash (fuel : nat) :
  forall (a : nat) (w : World),
    geminiFlashModel w = Some flash ->
    a <= maxAttempts -> maxAttempts - a <= fuel ->
    let r := GenerateContent flash "Test connection" in
    exists out w' evs n,
      connectLoop pro flash fuel false a w = (out, w')
      /\ sameSetup w w'
      /\ trace w' = (trace w ++ evs)%list
      /\ requestsOf evs = repeat r n
      /\ a + n <= maxAttempts
      /\ (forall k, S k < n -> exists msg, verdict w r k = Some msg)
      /\ ((n = 0 /\ a = maxAttempts /\ out = Done tt /\ evs = [])
          \/ (exists k, n = S k /\ verdict w r k = None /\ out = Done tt
                        /\ actionsOf evs = retrySchedule r k)
          \/ (exists k msg, n = S k /\ a + n = maxAttempts /\ verdict w r k = Some msg
                            /\ out = Raised (connectionExhausted msg)
                            /\ actionsOf evs = retrySchedule r k)).
Proof.
  induction fuel as [| fuel IH]; intros a w Hf Ha Hfuel r.
  - exists (Done tt), w, [], 0.
    split; [apply connectLoop_spent; lia |].
    split; [apply sameSetup_refl |].
    split; [now rewrite app_nil_r |].
    split; [reflexivity |].
    split; [lia |].
    split; [intros k Hk; lia |].
    left. repeat split. lia.
  - destruct (Nat.eq_dec a maxAttempts) as [-> | Hne].
    { exists (Done tt), w, [], 0.
      split; [apply connectLoop_spent; lia |].
      split; [apply sameSetup_refl |].
      split; [now rewrite app_nil_r |].
      split; [reflexivity |].
      split; [lia |].
      split; [intros k Hk; lia |].
      left. repeat split. }
    rewrite connectLoop_unfold by lia.
    destruct (attempt_step pro flash false (S a) w Hf)
      as (w1 & evs1 & Hrun & Hsame & Htr & Hreq & Hact).
    fold r in Hrun, Hreq, Hact. rewrite <- verdict_0 in Hrun, Hact.
    rewrite Hrun. clear Hrun.
    destruct (verdict w r 0) as [msg |] eqn:V0.
    + destruct (maxAttempts <=? S a)%nat eqn:Last.
      * apply Nat.leb_le in Last.
        exists (Raised (connectionExhausted msg)), w1, evs1, 1.
        split; [reflexivity |].
        split; [exact Hsame |].
        split; [exact Htr |].
        split; [exact Hreq |].
        split; [lia |].
        split; [intros k Hk; lia |].
        right. right. exists 0, msg.
        split; [reflexivity |]. split; [lia |]. split; [exact V0 |].
        split; [reflexivity | exact Hact].
      * apply Nat.leb_gt in Last.
        assert (Hf1 : geminiFlashModel w1 = Some flash).
        { destruct Hsame as (_ & _ & _ & _ & _ & Hfl). now rewrite Hfl. }
        destruct (IH (S a) w1 Hf1 ltac:(lia) ltac:(lia))
          as (out & w2 & evs2 & n & Hrun2 & Hsame2 & Htr2 & Hreq2 & Hn & Hearlier & Hend).
        fold r in Hreq2, Hearlier, Hend.
        exists out, w2, (evs1 ++ evs2)%list, (S n).
        split; [exact Hrun2 |].
        split; [exact (sameSetup_trans _ _ _ Hsame Hsame2) |].
        split; [rewrite Htr2, Htr, app_assoc; reflexivity |].
        split; [rewrite requestsOf_app, Hreq, Hreq2; reflexivity |].
        split; [lia |].
        split.
        { intros [| k] Hk; [now exists msg |].
          destruct (Hearlier k ltac:(lia)) as [msg' Hk'].
          exists msg'. now rewrite <- (verdict_shift w w1 r evs1 k Hsame Htr Hreq). }
        destruct Hend as [(-> & Hmax & _) | [(k & -> & Vk & -> & Hact2)
                                            | (k & msg' & -> & Hsum & Vk & -> & Hact2)]].
        -- lia.
        -- right. left. exists (S k).
           rewrite (verdict_shift w w1 r evs1 k Hsame Htr Hreq) in Vk.
           split; [reflexivity |]. split; [exact Vk |]. split; [reflexivity |].
           rewrite actionsOf_app, Hact, Hact2. reflexivity.
        -- right. right. exists (S k), msg'.
           rewrite (verdict_shift w w1 r evs1 k Hsame Htr Hreq) in Vk.
           split; [reflexivity |]. split; [lia |]. split; [exact Vk |].
           split; [reflexivity |].
           rewrite actionsOf_app, Hact, Hact2. reflexivity.
    + rewrite connectLoop_connected.
      exists (Done tt), w1, evs1, 1.
      split; [reflexivity |].
      split; [exact Hsame |].
      split; [exact Htr |].
      split; [exact Hreq |].
      split; [lia |].
      split; [intros k Hk; lia |].
      right. left. exists 0.
      split; [reflexivity |]. split; [exact V0 |]. split; [reflexivity | exact Hact].
Qed.

Lemma initGeminiClient_unfold `{Engine} (w : World) :
  initGeminiClient w =
    if falsy (env w "GEMINI_API_KEY")
    then (Raised (ErrorObj "GEMINI_API_KEY environment variable is required"), w)
    else match connectLoop (proModelName w) (flashModelName w) maxAttempts
                 false 0 (configured w) with
         | (Raised e, w') =>
             (Raised e, emit (EvLog LogError "Failed to initialize Gemini client:") w')
         | other => other
         end.
Proof.
  unfold initGeminiClient, getEnv. cbn [bind Monad_Async].
  destruct (falsy (env w "GEMINI_API_KEY")); reflexivity.
Qed.

(** [initGeminiClient] with a credential: the handles are set, then the
    loop runs from zero attempts. *)
Lemma initGeminiClient_run `{Engine} (w : World) :
  hasCredential w ->
  let r := testRequest w in
  exists out w' evs n,
    initGeminiClient w = (out, w')
    /\ trace w' = (trace w ++ evs)%list
    /\ requestsOf evs = repeat r n
    /\ 1 <= n <= 3
    /\ (forall k, S k < n -> exists msg, fails w k msg)
    /\ ((exists k, n = S k /\ succeeds w k /\ out = Done tt
                   /\ actionsOf evs = retrySchedule r k
                   /\ geminiProModel w' = Some (proModelName w)
                   /\ geminiFlashModel w' = Some (flashModelName w))
        \/ (exists msg, n = 3 /\ fails w 2 msg
                        /\ out = Raised (connectionExhausted msg)
                        /\ actionsOf evs = retrySchedule r 2)).
Proof.
  intros Hcred r.
  destruct (connectLoop_run (proModelName w) (flashModelName w) maxAttempts 0
              (configured w)
              eq_refl ltac:(unfold maxAttempts; lia) ltac:(unfold maxAttempts; lia))
    as (out & w1 & evs & n & Hrun & Hsame & Htr & Hreq & Hn & Hearlier & Hend).
  unfold hasCredential in Hcred.
  rewrite initGeminiClient_unfold, Hcred, Hrun. clear Hrun.
  change (trace (configured w)) with (trace w) in Htr.
  unfold maxAttempts in Hn. cbn [Nat.add] in Hn.
  destruct Hend as [(-> & Hmax & _) | [(k & -> & Vk & -> & Hact)
                                      | (k & msg & -> & Hsum & Vk & -> & Hact)]].
  - discriminate Hmax.
  - exists (Done tt), w1, evs, (S k).
    split; [reflexivity |]. split; [exact Htr |]. split; [exact Hreq |].
    split; [lia |]. split; [exact Hearlier |].
    left. exists k.
    split; [reflexivity |]. split; [exact Vk |]. split; [reflexivity |].
    split; [exact Hact |].
    destruct Hsame as (_ & _ & _ & _ & Hp & Hfl). now rewrite Hp, Hfl.
  - assert (k = 2) as -> by (unfold maxAttempts in Hsum; lia).
    exists (Raised (connectionExhausted msg)),
           (emit (EvLog LogError "Failed to initialize Gemini client:") w1),
           (evs ++ [EvLog LogError "Failed to initialize Gemini client:"])%list, 3.
    split; [reflexivity |].
    split; [cbn [trace emit]; rewrite Htr, app_assoc; reflexivity |].
    split; [rewrite requestsOf_app, Hreq; cbn; reflexivity |].
    split; [lia |]. split; [exact Hearlier |].
    right. exists msg.
    split; [reflexivity |]. split; [exact Vk |]. split; [reflexivity |].
    rewrite actionsOf_app, Hact. cbn. reflexivity.
Qed.

(** Without a credential [initGeminiClient] throws at once: nothing is
    created and no request is made. *)
Lemma initGeminiClient_missing_credential `{Engine} (w : World) :
  falsy (env w "GEMINI_API_KEY") = true ->
  initGeminiClient w
  = (Raised (ErrorObj "GEMINI_API_KEY environment variable is required"), w).
Proof.
  intros Hcred. now rewrite initGeminiClient_unfold, Hcred.
Qed.

(** The loop never runs out of fuel, and [initGeminiClient] never waits for
    ever: it returns or throws. *)
Lemma initGeminiClient_total `{Engine} (w : World) :
  exists w', initGeminiClient w = (Done tt, w')
             \/ exists e, initGeminiClient w = (Raised e, w').
Proof.
  destruct (falsy (env w "GEMINI_API_KEY")) eqn:Hcred.
  - exists w. right. eexists. rewrite initGeminiClient_unfold, Hcred. reflexivity.
  - destruct (initGeminiClient_run w Hcred)
      as (out & w' & evs & n & Hrun & _ & _ & _ & _ & Hend).
    exists w'. rewrite Hrun.
    destruct Hend as [(k & _ & _ & -> & _) | (msg & _ & _ & -> & _)];
      [left; reflexivity | right; eexists; reflexivity].
Qed.

(** The two ways an initialisation can go, by the verdicts on the first
    validation calls. *)
Lemma retry_bound_core `{Engine} (w : World) :
  hasCredential w ->
  (forall n,
      n < 3 ->
      (forall k, k < n -> exists msg, fails w k msg) ->
      succeeds w n ->
      initGeminiClient w = (Done tt, snd (initGeminiClient w))
      /\ issued w (snd (initGeminiClient w)) = repeat (testRequest w) (S n)
      /\ performed w (snd (initGeminiClient w)) = retrySchedule (testRequest w) n)
  /\ (forall m0 m1 m2,
        fails w 0 m0 -> fails w 1 m1 -> fails w 2 m2 ->
        initGeminiClient w = (Raised (connectionExhausted m2), snd (initGeminiClient w))
        /\ issued w (snd (initGeminiClient w)) = repeat (testRequest w) 3
        /\ performed w (snd (initGeminiClient w)) = retrySchedule (testRequest w) 2).
Proof.
  intros Hcred.
  destruct (initGeminiClient_run w Hcred)
    as (out & w' & evs & n & Hrun & Htr & Hreq & Hn & Hearlier & Hend).
  rewrite Hrun. cbn [fst snd].
  rewrite (issued_app w w' evs Htr), (performed_app w w' evs Htr), Hreq.
  unfold fails, succeeds in *.
  split.
  - intros N HN Hfail Hsucc.
    destruct Hend as [(k & -> & Vk & -> & Hact & _) | (msg & -> & Vk & _)].
    + assert (k = N) as ->.
      { destruct (Nat.lt_trichotomy k N) as [Hlt | [Heq | Hgt]]; [| exact Heq |].
        - destruct (Hfail k Hlt) as [msg Hk]. congruence.
        - destruct (Hearlier N ltac:(lia)) as [msg HN']. congruence. }
      repeat split. exact Hact.
    + destruct (Nat.eq_dec N 2) as [-> | Hne]; [congruence |].
      destruct (Hearlier N ltac:(lia)) as [msg' HN']. congruence.
  - intros m0 m1 m2 F0 F1 F2.
    destruct Hend as [(k & -> & Vk & _) | (msg & -> & Vk & -> & Hact)].
    + assert (k < 3) as Hk by lia.
      destruct k as [| [| [| k]]]; try lia; congruence.
    + assert (msg = m2) as -> by congruence.
      repeat split. exact Hact.
Qed.



(** ** The deadline *)

Lemma tooLate_timeout (tie : bool) (reply : Reply) :
  tooLate reply -> validationFailure tie reply = Some "Connection timeout".
Proof.
  intros [-> | (d & s & -> & Hd)]; [reflexivity |].
  unfold validationFailure, inTime.
  destruct (N.ltb_spec d 10000); [lia |].
  destruct (N.eqb_spec d 10000); [lia |]. reflexivity.
Qed.

Lemma testConnection_tooLate `{Engine} pro flash (a : nat) (w : World) :
  geminiFlashModel w = Some flash ->
  tooLate (nextReply w (GenerateContent flash "Test connection")) ->
  testConnection pro flash a w
  = (Raised (ErrorObj "Connection timeout"),
     advanceTo (now w + 10000) (attemptSent flash a w)).
Proof.
  intros Hf Hlate. rewrite (testConnection_run pro flash a w Hf).
  destruct Hlate as [-> | (d & s & -> & Hd)]; [reflexivity |].
  unfold inTime.
  destruct (N.ltb_spec d 10000); [lia |].
  destruct (N.eqb_spec d 10000); [lia |]. reflexivity.
Qed.

Lemma alike_emit (e : Event) (w w' : World) : alike w w' -> alike (emit e w) (emit e w').
Proof.
  intros (E1 & E2 & E3 & E4 & E5 & E6). unfold alike. cbn.
  rewrite E5. repeat split; try assumption; apply E4.
Qed.

Lemma alike_advanceTo (t : N) (w w' : World) :
  alike w w' -> alike (advanceTo t w) (advanceTo t w').
Proof.
  intros (E1 & E2 & E3 & E4 & E5 & E6). unfold alike. cbn.
  rewrite E1. repeat split; try assumption; apply E4.
Qed.

Lemma alike_attemptSent (flash : string) (a : nat) (w w' : World) :
  alike w w' -> alike (attemptSent flash a w) (attemptSent flash a w').
Proof.
  intros Ha. unfold attemptSent. now repeat apply alike_emit.
Qed.

Lemma connectionFailed_alike (connected : bool) (a : nat) (e : Thrown) (w w' : World) :
  alike w w' ->
  exists out w1 w1',
    connectionFailed connected a e w = (out, w1)
    /\ connectionFailed connected a e w' = (out, w1')
    /\ alike w1 w1'.
Proof.
  intros Ha. unfold connectionFailed, log, sleep.
  cbn -[N.add N.max natToString append Nat.leb maxAttempts emit advanceTo].
  destruct (maxAttempts <=? a)%nat; do 3 eexists.
  - split; [reflexivity |]. split; [reflexivity |]. now apply alike_emit.
  - split; [reflexivity |]. split; [reflexivity |].
    assert (Hnow : now (emit (EvLog LogWarn ("Connection attempt " ++ natToString a
                                              ++ " failed: " ++ errorMessage e)) w')
                   = now (emit (EvLog LogWarn ("Connection attempt " ++ natToString a
                                               ++ " failed: " ++ errorMessage e)) w)).
    { cbn. apply Ha. }
    rewrite Hnow. now apply alike_advanceTo, alike_emit, alike_emit.
Qed.

(** A round of the loop cannot tell a late answer from no answer. *)
Lemma attempt_alike `{Engine} pro flash (connected : bool) (a : nat) (w w' : World) :
  alike w w' ->
  geminiFlashModel w = Some flash ->
  exists out w1 w1',
    catch (testConnection pro flash a) (connectionFailed connected a) w = (out, w1)
    /\ catch (testConnection pro flash a) (connectionFailed connected a) w' = (out, w1')
    /\ alike w1 w1'.
Proof.
  intros Ha Hf.
  assert (Hf' : geminiFlashModel w' = Some flash).
  { destruct Ha as (_ & _ & _ & (_ & _ & Hfl) & _). now rewrite Hfl. }
  pose proof Ha as (Enow & _ & Etie & _ & Etr & Hu).
  set (r := GenerateContent flash "Test connection").
  assert (Sent : forall t, alike (advanceTo t (attemptSent flash a w))
                                 (advanceTo t (attemptSent flash a w')))
    by (intros t; now apply alike_advanceTo, alike_attemptSent).
  assert (Late : forall reply reply', tooLate reply -> tooLate reply' ->
    nextReply w r = reply -> nextReply w' r = reply' ->
    exists out w1 w1',
      catch (testConnection pro flash a) (connectionFailed connected a) w = (out, w1)
      /\ catch (testConnection pro flash a) (connectionFailed connected a) w' = (out, w1')
      /\ alike w1 w1').
  { intros reply reply' L L' E E'. cbn [catch Exc_Async].
    rewrite (testConnection_tooLate pro flash a w Hf) by (fold r; now rewrite E).
    rewrite (testConnection_tooLate pro flash a w' Hf') by (fold r; now rewrite E').
    rewrite Enow. apply connectionFailed_alike, Sent. }
  assert (Hreply : nextReply w' r = upstream w' (requestsOf (trace w)) r)
    by (unfold nextReply; now rewrite Etr).
  destruct (Hu (requestsOf (trace w)) r) as [E | [L L']].
  2: { exact (Late _ _ L L' eq_refl Hreply). }
  cbn [catch Exc_Async].
  rewrite (testConnection_run pro flash a w Hf), (testConnection_run pro flash a w' Hf').
  fold r. rewrite Hreply, <- E, Enow, Etie. unfold nextReply.
  destruct (upstream w (requestsOf (trace w)) r) as [d s |].
  - destruct (inTime (firstOnTie w) 10000 d).
    + destruct s as [[| t | e] | e].
      * apply connectionFailed_alike, Sent.
      * do 3 eexists. split; [reflexivity |]. split; [reflexivity |].
        now repeat apply alike_emit.
      * do 3 eexists. split; [reflexivity |]. split; [reflexivity |].
        now repeat apply alike_emit.
      * apply connectionFailed_alike, Sent.
    + apply connectionFailed_alike, Sent.
  - apply connectionFailed_alike, Sent.
Qed.

Lemma connectLoop_alike `{Engine} pro flash (fuel : nat) :
  forall (connected : bool) (a : nat) (w w' : World),
    alike w w' ->
    geminiFlashModel w = Some flash ->
    exists out w1 w1',
      connectLoop pro flash fuel connected a w = (out, w1)
      /\ connectLoop pro flash fuel connected a w' = (out, w1')
      /\ alike w1 w1'.
Proof.
  induction fuel as [| fuel IH]; intros connected a w w' Ha Hf.
  - cbn [connectLoop].
    destruct (negb connected && (a <? maxAttempts)%nat);
      do 3 eexists; (split; [reflexivity |]); (split; [reflexivity |]); exact Ha.
  - cbn [connectLoop].
    destruct (negb connected && (a <? maxAttempts)%nat).
    + cbn [bind Monad_Async].
      destruct (attempt_step pro flash connected (S a) w Hf)
        as (wS & evs & Hrun & Hsame & _).
      destruct (attempt_alike pro flash connected (S a) w w' Ha Hf)
        as (out & w1 & w1' & E1 & E2 & Ha1).
      assert (wS = w1) as -> by congruence.
      rewrite E1, E2.
      destruct out as [c | e | | code |].
      * apply IH; [exact Ha1 |].
        destruct Hsame as (_ & _ & _ & _ & _ & Hfl). now rewrite Hfl.
      * do 3 eexists. split; [reflexivity |]. split; [reflexivity |]. exact Ha1.
      * do 3 eexists. split; [reflexivity |]. split; [reflexivity |]. exact Ha1.
      * do 3 eexists. split; [reflexivity |]. split; [reflexivity |]. exact Ha1.
      * do 3 eexists. split; [reflexivity |]. split; [reflexivity |]. exact Ha1.
    + do 3 eexists. split; [reflexivity |]. split; [reflexivity |]. exact Ha.
Qed.

Lemma initGeminiClient_alike `{Engine} (w w' : World) :
  alike w w' ->
  exists out w1 w1',
    initGeminiClient w = (out, w1)
    /\ initGeminiClient w' = (out, w1')
    /\ alike w1 w1'.
Proof.
  intros Ha. pose proof Ha as (Enow & Eenv & Etie & Eh & Etr & Hu).
  rewrite !initGeminiClient_unfold. rewrite Eenv.
  destruct (falsy (env w "GEMINI_API_KEY")).
  { do 3 eexists. split; [reflexivity |]. split; [reflexivity |]. exact Ha. }
  assert (Ha0 : alike (configured w) (configured w')).
  { unfold configured, flashModelName, proModelName. rewrite Eenv.
    unfold alike, sameHandles. cbn. repeat split; assumption. }
  assert (Epro : proModelName w' = proModelName w)
    by (unfold proModelName; now rewrite Eenv).
  assert (Eflash : flashModelName w' = flashModelName w)
    by (unfold flashModelName; now rewrite Eenv).
  rewrite Epro, Eflash.
  destruct (connectLoop_alike (proModelName w) (flashModelName w) maxAttempts false 0
              _ _ Ha0 eq_refl) as (out & w1 & w1' & -> & -> & Ha1).
  destruct out as [[] | e | | code |]; do 3 eexists;
    (split; [reflexivity |]); (split; [reflexivity |]);
    try exact Ha1.
  now apply alike_emit.
Qed.

(** C5. An attempt whose validation call has not settled when the 10
    second timer fires (it never settles, or settles later) fails with
    "Connection timeout" exactly 10000 ms after it began, in a world that
    does not depend on what the call does afterwards.  Two initialisations
    whose upstreams differ only in what they answer after the deadline end
    with the same outcome and in like worlds: a late answer, even a good one,
    is never taken for a success.  Such an attempt counts as a failed one. *)
Theorem timeout_precedence `{Engine} :
  (forall pro flash a (w : World),
      geminiFlashModel w = Some flash ->
      tooLate (nextReply w (GenerateContent flash "Test connection")) ->
      testConnection pro flash a w
      = (Raised (ErrorObj "Connection timeout"),
         advanceTo (now w + 10000) (attemptSent flash a w))
      /\ now (snd (testConnection pro flash a w)) = (now w + 10000)%N)
  /\ (forall w w' : World,
        alike w w' ->
        fst (initGeminiClient w') = fst (initGeminiClient w)
        /\ alike (snd (initGeminiClient w)) (snd (initGeminiClient w')))
  /\ (forall (w : World) k,
        tooLate (validation w k) -> fails w k "Connection timeout").
Proof.
  split; [| split].
  - intros pro flash a w Hf Hlate.
    rewrite (testConnection_tooLate pro flash a w Hf Hlate).
    split; [reflexivity |]. cbn. lia.
  - intros w w' Ha.
    destruct (initGeminiClient_alike w w' Ha) as (out & w1 & w1' & -> & -> & Ha1).
    split; [reflexivity | exact Ha1].
  - intros w k Hlate. now apply tooLate_timeout.
Qed.

Lemma timeout_precedence_witness :
  now (snd (testConnection (H := Node.engine) "gemini-2.5-pro-preview-03-25"
              "gemini-2.5-flash-preview-04-17" 1 (Node.ready (Node.slow 15000))))
  = 10000%N
  /\ fst (initGeminiClient (H := Node.engine) (Node.fresh Node.silent))
     = fst (initGeminiClient (H := Node.engine) (Node.fresh (Node.slow 15000)))
  /\ fails (Node.fresh (Node.slow 15000)) 0 "Connection timeout".
Proof.
  destruct (timeout_precedence (H := Node.engine)) as (Hattempt & Hsame & Hfails).
  split; [| split].
  - destruct (Hattempt "gemini-2.5-pro-preview-03-25" "gemini-2.5-flash-preview-04-17"
                1 (Node.ready (Node.slow 15000)) eq_refl
                (or_intror (ex_intro _ 15000%N
                              (ex_intro _ (Fulfilled (WithText "pong"))
                                 (conj eq_refl eq_refl)))))
      as (_ & Hnow).
    exact Hnow.
  - refine (proj1 (Hsame (Node.fresh (Node.slow 15000)) (Node.fresh Node.silent) _)).
    unfold alike, sameHandles. cbn.
    repeat split.
    intros before r. right. split.
    + right. exists 15000%N, (Fulfilled (WithText "pong")). split; reflexivity.
    + left. reflexivity.
  - apply Hfails. right. exists 15000%N, (Fulfilled (WithText "pong")).
    split; reflexivity.
Defined.

(* ===================================================================== *)
(** * The chat                                                            *)
(* ===================================================================== *)

(** [chat.sendMessage(text)]: the request goes out and its promise comes
    back. *)
Lemma sendMessage_run `{Engine} (chat text : string) (w : World) :
  sendMessage chat text w =
    (Done match nextReply w (SendMessage chat text) with
          | After d s => SettlesAt (now w + d) s
          | NoReply => NeverSettles
          end,
     emit (EvRequest (SendMessage chat text)) w).
Proof. reflexivity. Qed.

Lemma forwardUserMessages_run `{Engine} (chat : string) (messages : list Message) :
  forall w : World,
    loopAnswered (upstream w) (requestsOf (trace w)) chat (userContents messages) ->
    exists w' evs,
      forwardUserMessages chat messages w = (Done tt, w')
      /\ sameSetup w w'
      /\ trace w' = (trace w ++ evs)%list
      /\ requestsOf evs = map (SendMessage chat) (userContents messages).
Proof.
  induction messages as [| message rest IH]; intros w Hans.
  - exists w, []. split; [reflexivity |]. split; [apply sameSetup_refl |].
    split; [now rewrite app_nil_r | reflexivity].
  - cbn [forwardUserMessages]. unfold userContents in *. cbn [filter] in *.
    destruct (isUser (role message)) eqn:Huser.
    + cbn [map loopAnswered] in Hans. destruct Hans as ((d & result & Hreply) & Hrest).
      set (w0 := emit (EvLog LogPrompt (GeminiClient.content message)) w).
      set (w1 := advanceTo (now w0 + d)
                   (emit (EvRequest (SendMessage chat (GeminiClient.content message))) w0)).
      assert (Hreq1 : requestsOf (trace w1)
                      = (requestsOf (trace w)
                         ++ [SendMessage chat (GeminiClient.content message)])%list).
      { unfold w1, w0. cbn [trace emit advanceTo]. rewrite !requestsOf_app.
        cbn [requestsOf]. now rewrite app_nil_r. }
      assert (Hans1 : loopAnswered (upstream w1) (requestsOf (trace w1)) chat
                        (map GeminiClient.content
                           (filter (fun m => isUser (role m)) rest))).
      { rewrite Hreq1. exact Hrest. }
      destruct (IH w1 Hans1) as (w2 & evs & Hrun & Hsame & Htr & Hreq).
      exists w2, ([EvLog LogPrompt (GeminiClient.content message);
                   EvRequest (SendMessage chat (GeminiClient.content message))]
                  ++ evs)%list.
      split.
      { assert (Hnext : nextReply w0 (SendMessage chat (GeminiClient.content message))
                        = After d (Fulfilled result))
          by (unfold w0; rewrite nextReply_log; exact Hreply).
        unfold log. cbn [bind ret Monad_Async]. fold w0.
        rewrite sendMessage_run, Hnext. cbn [await]. exact Hrun. }
      split; [exact Hsame |].
      split; [rewrite Htr; cbn; rewrite <- !app_assoc; reflexivity |].
      cbn [map]. rewrite requestsOf_app, Hreq. reflexivity.
    + destruct (IH w Hans) as (w2 & evs & Hrun & Hsame & Htr & Hreq).
      exists w2, evs.
      split; [cbn [bind ret Monad_Async]; exact Hrun |].
      split; [exact Hsame |]. split; [exact Htr | exact Hreq].
Qed.

Lemma lastOf_split (messages : list Message) (lastMessage : Message) :
  lastOf messages = Some lastMessage -> exists earlier, messages = (earlier ++ [lastMessage])%list.
Proof.
  unfold lastOf.
  induction messages as [| m earlier _] using rev_ind; intros Hlast.
  - discriminate Hlast.
  - exists earlier. rewrite length_app in Hlast. cbn [length] in Hlast.
    rewrite Nat.add_sub in Hlast.
    rewrite nth_error_app2, Nat.sub_diag in Hlast by lia.
    cbn in Hlast. congruence.
Qed.

Lemma userContents_last (earlier : list Message) (lastMessage : Message) :
  role lastMessage = User ->
  userContents (earlier ++ [lastMessage])
  = (userContents earlier ++ [GeminiClient.content lastMessage])%list.
Proof.
  intros Hrole. unfold userContents. rewrite filter_app, map_app. cbn [filter].
  rewrite Hrole. reflexivity.
Qed.

Lemma sentMessages_map (chat : string) (texts : list string) :
  sentMessages (map (SendMessage chat) texts) = texts.
Proof.
  unfold sentMessages.
  induction texts as [| t texts IH]; cbn; [reflexivity | now rewrite IH].
Qed.

Lemma generateWithChat_run `{Engine} (messages : list Message) (useProModel : bool)
    (lastMessage : Message) (w : World) (m : string) :
  (if useProModel then geminiProModel w else geminiFlashModel w) = Some m ->
  lastOf messages = Some lastMessage ->
  role lastMessage = User ->
  loopAnswered (upstream w) (requestsOf (trace w)) m (userContents messages) ->
  let final := SendMessage m (GeminiClient.content lastMessage) in
  let reply := upstream w (requestsOf (trace w)
                           ++ map (SendMessage m) (userContents messages))%list final in
  exists out w' evs,
    generateWithChat messages useProModel w = (out, w')
    /\ trace w' = (trace w ++ evs)%list
    /\ requestsOf evs = (map (SendMessage m) (userContents messages) ++ [final])%list
    /\ (forall d t, reply = After d (Fulfilled (WithText t)) -> out = Done t).
Proof.
  intros Hm Hlast Hrole Hans final reply.
  set (w0 := emit (EvLog LogDebug "Starting chat with messages:") w).
  assert (Hans0 : loopAnswered (upstream w0) (requestsOf (trace w0)) m
                    (userContents messages)).
  { unfold w0. cbn [trace emit upstream]. rewrite requestsOf_app.
    cbn [requestsOf]. now rewrite app_nil_r. }
  destruct (forwardUserMessages_run m messages w0 Hans0)
    as (w1 & evs & Hrun & Hsame & Htr & Hreq).
  assert (Hreply : nextReply (emit (EvLog LogPrompt (GeminiClient.content lastMessage)) w1)
                     final = reply).
  { rewrite nextReply_log. unfold nextReply, reply.
    destruct Hsame as (_ & -> & _).
    rewrite Htr. unfold w0. cbn [trace emit].
    rewrite !requestsOf_app, Hreq. cbn [requestsOf]. now rewrite app_nil_r. }
  unfold generateWithChat. cbn [catch Exc_Async bind Monad_Async].
  replace ((if useProModel then getProModel else getFlashModel) w)
    with (@Done (option string) (Some m), w)
    by (destruct useProModel; unfold getProModel, getFlashModel; now rewrite Hm).
  cbn [startChat ret Monad_Async]. unfold log at 1. fold w0. rewrite Hrun, Hlast, Hrole.
  cbn [isUser]. unfold log at 1. cbn [bind Monad_Async].
  rewrite sendMessage_run. fold final. rewrite Hreply.
  assert (Htrace : forall t tail,
    (trace (advanceTo t (emit (EvRequest final)
                           (emit (EvLog LogPrompt (GeminiClient.content lastMessage)) w1)))
       ++ tail
     = trace w ++ ([EvLog LogDebug "Starting chat with messages:"] ++ evs
                   ++ [EvLog LogPrompt (GeminiClient.content lastMessage);
                       EvRequest final] ++ tail))%list).
  { intros t tail. cbn. rewrite Htr. cbn. rewrite <- !app_assoc. reflexivity. }
  assert (Hrequests : forall tail, requestsOf tail = [] ->
    requestsOf ([EvLog LogDebug "Starting chat with messages:"] ++ evs
                ++ [EvLog LogPrompt (GeminiClient.content lastMessage);
                    EvRequest final] ++ tail)
    = (map (SendMessage m) (userContents messages) ++ [final])%list).
  { intros tail Htail. rewrite !requestsOf_app, Hreq, Htail. reflexivity. }
  destruct reply as [d [[| t | e] | e] |].
  - do 3 eexists. split; [reflexivity |].
    split; [cbn [trace emit]; apply Htrace |].
    split; [now apply Hrequests | intros ? ? [=]].
  - do 3 eexists. split; [reflexivity |].
    split; [cbn [trace emit]; apply Htrace |].
    split; [now apply Hrequests | intros ? ? [= _ ->]; reflexivity].
  - do 3 eexists. split; [reflexivity |].
    split; [cbn [trace emit]; apply Htrace |].
    split; [now apply Hrequests | intros ? ? [=]].
  - do 3 eexists. split; [reflexivity |].
    split; [cbn [trace emit]; apply Htrace |].
    split; [now apply Hrequests | intros ? ? [=]].
  - do 3 eexists. split; [reflexivity |].
    split; [rewrite <- (app_nil_r (trace _)); apply Htrace with (t := 0%N) |].
    split; [now apply Hrequests | intros ? ? [=]].
Qed.

(** C10. When the last message of the list has role "user" (and the chat
    fulfils the sends of the loop, so that the loop runs to its end),
    [generateWithChat] sends the text of every user message in order, the
    last message among them, and then sends the text of the last message a
    second time; the answer to this second send is what it returns. *)
Theorem chat_sends_last_message_twice `{Engine} (messages : list Message)
    (useProModel : bool) (lastMessage : Message) (w : World) (m : string) :
  (if useProModel then geminiProModel w else geminiFlashModel w) = Some m ->
  lastOf messages = Some lastMessage ->
  role lastMessage = User ->
  loopAnswered (upstream w) (requestsOf (trace w)) m (userContents messages) ->
  let res := generateWithChat messages useProModel w in
  let final := SendMessage m (GeminiClient.content lastMessage) in
  issued w (snd res) = (map (SendMessage m) (userContents messages) ++ [final])%list
  /\ (exists earlier,
        userContents messages = (earlier ++ [GeminiClient.content lastMessage])%list
        /\ sentMessages (issued w (snd res))
           = (earlier ++ [GeminiClient.content lastMessage;
                          GeminiClient.content lastMessage])%list)
  /\ (forall d t,
        upstream w (requestsOf (trace w)
                    ++ map (SendMessage m) (userContents messages))%list final
        = After d (Fulfilled (WithText t)) ->
        fst res = Done t).
Proof.
  intros Hm Hlast Hrole Hans res final. subst res.
  destruct (generateWithChat_run messages useProModel lastMessage w m
              Hm Hlast Hrole Hans) as (out & w' & evs & Hrun & Htr & Hreq & Htext).
  fold final in Hreq, Htext. rewrite Hrun. cbn [fst snd].
  rewrite (issued_app w w' evs Htr), Hreq.
  split; [reflexivity |]. split; [| exact Htext].
  destruct (lastOf_split messages lastMessage Hlast) as (before & ->).
  exists (userContents before).
  rewrite (userContents_last before lastMessage Hrole).
  split; [reflexivity |].
  unfold final, sentMessages. rewrite flat_map_app.
  fold (sentMessages (map (SendMessage m)
                        (userContents before ++ [GeminiClient.content lastMessage]))).
  rewrite sentMessages_map, <- app_assoc. reflexivity.
Qed.

Lemma chat_sends_last_message_twice_witness :
  sentMessages
    (issued (Node.ready (Node.answering "ok"))
       (snd (generateWithChat (H := Node.engine) Node.chatter true
               (Node.ready (Node.answering "ok")))))
  = ["hello"; "plan?"; "plan?"]
  /\ fst (generateWithChat (H := Node.engine) Node.chatter true
            (Node.ready (Node.answering "ok")))
     = Done "ok".
Proof.
  destruct (chat_sends_last_message_twice (H := Node.engine) Node.chatter true
              {| role := User; GeminiClient.content := "plan?" |}
              (Node.ready (Node.answering "ok")) "gemini-2.5-pro-preview-03-25"
              eq_refl eq_refl eq_refl
              (conj (ex_intro _ 40%N (ex_intro _ (WithText "ok") eq_refl))
                 (conj (ex_intro _ 40%N (ex_intro _ (WithText "ok") eq_refl)) I)))
    as (_ & (earlier & Hearlier & Hsent) & Htext).
  split.
  - rewrite Hsent.
    assert (earlier = ["hello"]) as ->.
    { change (userContents Node.chatter) with (["hello"] ++ ["plan?"])%list in Hearlier.
      now apply app_inj_tail in Hearlier as (<- & _). }
    reflexivity.
  - exact (Htext 40%N "ok" eq_refl).
Defined.

(* ===================================================================== *)
(** * Startup                                                             *)
(* ===================================================================== *)

Lemma validation_log (ch : Channel) (text : string) (w : World) (k : nat) :
  validation (emit (EvLog ch text) w) k = validation w k.
Proof.
  unfold validation. cbn [trace emit upstream]. rewrite requestsOf_app.
  cbn [requestsOf]. rewrite app_nil_r. reflexivity.
Qed.

(** X18. With a credential, [main] returns when one of the first three
    validation calls succeeds after the earlier ones failed, and ends the
    process with status 1 when all three fail. *)
Lemma main_serves_or_exits `{Engine} (logLevel : string) (w : World) :
  hasCredential w ->
  (forall n,
      n < 3 -> (forall k, k < n -> exists msg, fails w k msg) -> succeeds w n ->
      fst (Index.main logLevel w) = Done tt)
  /\ (forall m0 m1 m2,
        fails w 0 m0 -> fails w 1 m1 -> fails w 2 m2 ->
        fst (Index.main logLevel w) = Exited 1).
Proof.
  intros Hcred.
  set (l1 := EvLog LogInfo ("Starting MCP Gemini Server with model: "
                            ++ orElse (env w "GEMINI_MODEL")
                                 "gemini-2.5-pro-preview-03-25")).
  set (l2 := EvLog LogInfo ("Logging mode: " ++ logLevel)).
  set (w0 := emit l2 (emit l1 w)).
  assert (Hmain : Index.main logLevel w =
                  match initGeminiClient w0 with
                  | (Done _, w') =>
                      (Done tt, emit (EvLog LogInfo "MCP Gemini Server running")
                                  (emit EvConnect w'))
                  | (Raised _, w') =>
                      (Exited 1,
                       emit (EvLog LogError "Failed to start MCP Gemini Server:") w')
                  | (Pending, w') => (Pending, w')
                  | (Exited code, w') => (Exited code, w')
                  | (Exhausted, w') => (Exhausted, w')
                  end).
  { unfold Index.main, Index.serveTools, getEnv, log, processExit.
    cbn [bind Monad_Async catch Exc_Async]. fold l1 l2 w0.
    destruct (initGeminiClient w0) as [[[] | e | | code |] w']; reflexivity. }
  assert (Hcred0 : hasCredential w0) by exact Hcred.
  assert (Hval : forall k, validation w0 k = validation w k).
  { intros k. unfold w0, l1, l2. now rewrite !validation_log. }
  destruct (retry_bound_core w0 Hcred0) as (Hok & Hfail).
  rewrite Hmain. split.
  - intros n Hn Hearlier Hsucc.
    destruct (Hok n Hn) as (-> & _); [| | reflexivity].
    + intros k Hk. destruct (Hearlier k Hk) as [msg Hmsg]. exists msg.
      unfold fails in *. now rewrite Hval.
    + unfold succeeds in *. now rewrite Hval.
  - intros m0 m1 m2 F0 F1 F2.
    destruct (Hfail m0 m1 m2) as (-> & _); [| | | reflexivity];
      unfold fails in *; now rewrite Hval.
Qed.

(* ===================================================================== *)
(** * The generation functions                                            *)
(* ===================================================================== *)

Lemma generateWithGeminiFlash_run `{Engine} (prompt : string) (w : World) (m : string) :
  geminiFlashModel w = Some m ->
  let r := GenerateContent m prompt in
  let sent := emit (EvRequest r) (emit (EvLog LogPrompt prompt) w) in
  generateWithGeminiFlash prompt w =
    match nextReply w r with
    | NoReply => (Pending, sent)
    | After d (Rejected e) =>
        (Raised e, emit flashFailureLog (advanceTo (now w + d) sent))
    | After d (Fulfilled NoResult) =>
        (Raised (typeError "response"), emit flashFailureLog (advanceTo (now w + d) sent))
    | After d (Fulfilled (WithText t)) =>
        (Done t, emit (EvLog LogResponse t) (advanceTo (now w + d) sent))
    | After d (Fulfilled (TextThrows e)) =>
        (Raised e, emit flashFailureLog (advanceTo (now w + d) sent))
    end.
Proof.
  intros Hm r sent. unfold nextReply.
  unfold generateWithGeminiFlash, generateContent, callUpstream, getFlashModel, log.
  cbn. rewrite Hm.
  rewrite requestsOf_app. cbn [requestsOf]. rewrite app_nil_r.
  fold r.
  destruct (upstream w (requestsOf (trace w)) r) as [d [[| t | e] | e] |];
    reflexivity.
Qed.

(** What holds of a generation call whose run has the shape of
    [generateWithGeminiPro_run]. *)
Lemma single_shot `{Engine} (res : Outcome string * World) (w : World) (r : Request)
    (ch : Channel) (line : string) (prompt : string) :
  (let sent := emit (EvRequest r) (emit (EvLog LogPrompt prompt) w) in
   res = match nextReply w r with
         | NoReply => (Pending, sent)
         | After d (Rejected e) =>
             (Raised e, emit (EvLog ch line) (advanceTo (now w + d) sent))
         | After d (Fulfilled NoResult) =>
             (Raised (typeError "response"),
              emit (EvLog ch line) (advanceTo (now w + d) sent))
         | After d (Fulfilled (WithText t)) =>
             (Done t, emit (EvLog LogResponse t) (advanceTo (now w + d) sent))
         | After d (Fulfilled (TextThrows e)) =>
             (Raised e, emit (EvLog ch line) (advanceTo (now w + d) sent))
         end) ->
  issued w (snd res) = [r]
  /\ sameSetup w (snd res)
  /\ (forall d t, nextReply w r = After d (Fulfilled (WithText t)) ->
      fst res = Done t /\ now (snd res) = (now w + d)%N)
  /\ (forall e, failsWith (nextReply w r) e -> fst res = Raised e)
  /\ (nextReply w r = NoReply -> fst res = Pending).
Proof.
  intros ->.
  destruct (nextReply w r) as [d [[| t | e] | e] |]; cbn [fst snd].
  all: split;
    [erewrite issued_app;
       [| cbn [trace emit advanceTo]; rewrite <- ?app_assoc; reflexivity];
       reflexivity |].
  all: split; [repeat split |].
  all: split;
    [first [ solve [intros ? ? [=]]
           | intros ? ? [= <- <-]; split; [reflexivity | cbn; lia] ] |].
  all: split; [intros ? Hf; inversion Hf; subst; reflexivity |].
  all: first [ solve [intros [=]] | reflexivity ].
Qed.

(** X1. [generateWithGeminiPro] on an initialised client makes exactly one
    request, on the Pro handle, whatever the upstream answers: it does not
    retry and has no timeout.  A text answer is returned after whatever
    delay the upstream takes; a failure of the call is rethrown as it is;
    with no answer the call stays pending.  The module globals are not
    touched. *)
Theorem generateWithGeminiPro_single_shot `{Engine} (prompt : string) (w : World)
    (m : string) :
  geminiProModel w = Some m ->
  let r := GenerateContent m prompt in
  let res := generateWithGeminiPro prompt w in
  issued w (snd res) = [r]
  /\ sameSetup w (snd res)
  /\ (forall d t, nextReply w r = After d (Fulfilled (WithText t)) ->
      fst res = Done t /\ now (snd res) = (now w + d)%N)
  /\ (forall e, failsWith (nextReply w r) e -> fst res = Raised e)
  /\ (nextReply w r = NoReply -> fst res = Pending).
Proof.
  intros Hm r res.
  apply (single_shot res w r LogError
           "Error generating content with Gemini Pro:" prompt).
  exact (generateWithGeminiPro_run prompt w m Hm).
Qed.

Lemma generateWithGeminiPro_single_shot_witness :
  fst (generateWithGeminiPro (H := Node.engine) "2+2?"
         (Node.ready (Node.slow 60000))) = Done "pong"
  /\ now (snd (generateWithGeminiPro (H := Node.engine) "2+2?"
                 (Node.ready (Node.slow 60000)))) = 60000%N
  /\ fst (generateWithGeminiPro (H := Node.engine) "2+2?"
            (Node.ready (Node.rejecting (NonError "socket hang up"))))
     = Raised (NonError "socket hang up")
  /\ fst (generateWithGeminiPro (H := Node.engine) "2+2?" (Node.ready Node.silent))
     = Pending.
Proof.
  split; [| split; [| split]].
  - exact (proj1 (proj1 (proj2 (proj2 (generateWithGeminiPro_single_shot
             (H := Node.engine) "2+2?" (Node.ready (Node.slow 60000))
             "gemini-2.5-pro-preview-03-25" eq_refl))) 60000%N "pong" eq_refl)).
  - exact (proj2 (proj1 (proj2 (proj2 (generateWithGeminiPro_single_shot
             (H := Node.engine) "2+2?" (Node.ready (Node.slow 60000))
             "gemini-2.5-pro-preview-03-25" eq_refl))) 60000%N "pong" eq_refl)).
  - apply (proj1 (proj2 (proj2 (proj2 (generateWithGeminiPro_single_shot
             (H := Node.engine) "2+2?"
             (Node.ready (Node.rejecting (NonError "socket hang up")))
             "gemini-2.5-pro-preview-03-25" eq_refl))))).
    apply (fails_rejected (H := Node.engine)).
  - exact (proj2 (proj2 (proj2 (proj2 (generateWithGeminiPro_single_shot
             (H := Node.engine) "2+2?" (Node.ready Node.silent)
             "gemini-2.5-pro-preview-03-25" eq_refl)))) eq_refl).
Defined.

(** X2. [generateWithGeminiFlash] behaves likewise on the Flash handle: one
    request whatever the answer, text returned as it is, failure rethrown
    as it is, pending when the upstream never answers. *)
Theorem generateWithGeminiFlash_single_shot `{Engine} (prompt : string) (w : World)
    (m : string) :
  geminiFlashModel w = Some m ->
  let r := GenerateContent m prompt in
  let res := generateWithGeminiFlash prompt w in
  issued w (snd res) = [r]
  /\ sameSetup w (snd res)
  /\ (forall d t, nextReply w r = After d (Fulfilled (WithText t)) ->
      fst res = Done t /\ now (snd res) = (now w + d)%N)
  /\ (forall e, failsWith (nextReply w r) e -> fst res = Raised e)
  /\ (nextReply w r = NoReply -> fst res = Pending).
Proof.
  intros Hm r res.
  apply (single_shot res w r LogError
           "Error generating content with Gemini Flash:" prompt).
  exact (generateWithGeminiFlash_run prompt w m Hm).
Qed.

Lemma generateWithGeminiFlash_single_shot_witness :
  issued (Node.ready (Node.answering "4"))
    (snd (generateWithGeminiFlash (H := Node.engine) "2+2?"
            (Node.ready (Node.answering "4"))))
  = [GenerateContent "gemini-2.5-flash-preview-04-17" "2+2?"]
  /\ fst (generateWithGeminiFlash (H := Node.engine) "2+2?"
            (Node.ready (Node.answering "4"))) = Done "4"
  /\ fst (generateWithGeminiFlash (H := Node.engine) "2+2?"
            (Node.ready (Node.rejecting (ErrorObj "429"))))
     = Raised (ErrorObj "429").
Proof.
  split; [| split].
  - exact (proj1 (generateWithGeminiFlash_single_shot (H := Node.engine) "2+2?"
             (Node.ready (Node.answering "4")) "gemini-2.5-flash-preview-04-17"
             eq_refl)).
  - exact (proj1 (proj1 (proj2 (proj2 (generateWithGeminiFlash_single_shot
             (H := Node.engine) "2+2?" (Node.ready (Node.answering "4"))
             "gemini-2.5-flash-preview-04-17" eq_refl))) 40%N "4" eq_refl)).
  - apply (proj1 (proj2 (proj2 (proj2 (generateWithGeminiFlash_single_shot
             (H := Node.engine) "2+2?" (Node.ready (Node.rejecting (ErrorObj "429")))
             "gemini-2.5-flash-preview-04-17" eq_refl))))).
    apply (fails_rejected (H := Node.engine)).
Defined.

Lemma generateWithChat_start `{Engine} (messages : list Message) (useProModel : bool)
    (w : World) (m : string) :
  (if useProModel then geminiProModel w else geminiFlashModel w) = Some m ->
  generateWithChat messages useProModel w =
    match forwardUserMessages m messages
            (emit (EvLog LogDebug "Starting chat with messages:") w) with
    | (Done _, w1) =>
        match lastOf messages with
        | None =>
            (Raised (typeError "role"),
             emit (EvLog LogError "Error generating content with chat:") w1)
        | Some lastMessage =>
            if isUser (role lastMessage) then
              let text := GeminiClient.content lastMessage in
              let sent := emit (EvRequest (SendMessage m text))
                            (emit (EvLog LogPrompt text) w1) in
              match nextReply w1 (SendMessage m text) with
              | NoReply => (Pending, sent)
              | After d (Rejected e) =>
                  (Raised e, emit (EvLog LogError "Error generating content with chat:")
                               (advanceTo (now w1 + d) sent))
              | After d (Fulfilled NoResult) =>
                  (Raised (typeError "response"),
                   emit (EvLog LogError "Error generating content with chat:")
                     (advanceTo (now w1 + d) sent))
              | After d (Fulfilled (WithText t)) =>
                  (Done t, emit (EvLog LogResponse t) (advanceTo (now w1 + d) sent))
              | After d (Fulfilled (TextThrows e)) =>
                  (Raised e, emit (EvLog LogError "Error generating content with chat:")
                               (advanceTo (now w1 + d) sent))
              end
            else (Done (GeminiClient.content lastMessage), w1)
        end
    | (Raised e, w1) =>
        (Raised e, emit (EvLog LogError "Error generating content with chat:") w1)
    | (Pending, w1) => (Pending, w1)
    | (Exited code, w1) => (Exited code, w1)
    | (Exhausted, w1) => (Exhausted, w1)
    end.
Proof.
  intros Hm. unfold generateWithChat. cbn [catch Exc_Async bind Monad_Async].
  replace ((if useProModel then getProModel else getFlashModel) w)
    with (@Done (option string) (Some m), w)
    by (destruct useProModel; unfold getProModel, getFlashModel; now rewrite Hm).
  cbn [startChat ret Monad_Async]. unfold log at 1.
  destruct (forwardUserMessages m messages _) as [[[] | e | | code |] w1];
    try reflexivity.
  destruct (lastOf messages) as [lastMessage |]; [| reflexivity].
  destruct (isUser (role lastMessage)); [| reflexivity].
  unfold log at 1. cbn [bind Monad_Async]. rewrite sendMessage_run, nextReply_log.
  destruct (nextReply w1 (SendMessage m (GeminiClient.content lastMessage)))
    as [d [[| t | e] | e] |]; reflexivity.
Qed.

Lemma prefixOf_refl {A} (xs : list A) : prefixOf xs xs.
Proof. exists []. now rewrite app_nil_r. Qed.

Lemma prefixOf_app {A} (xs rest : list A) : prefixOf xs (xs ++ rest).
Proof. now exists rest. Qed.

Lemma prefixOf_cons {A} (x : A) (xs ys : list A) :
  prefixOf xs ys -> prefixOf (x :: xs) (x :: ys).
Proof. intros [rest ->]. now exists rest. Qed.

Lemma prefixOf_app_l {A} (pre xs ys : list A) :
  prefixOf xs ys -> prefixOf (pre ++ xs) (pre ++ ys).
Proof. intros [rest ->]. exists rest. now rewrite app_assoc. Qed.

Lemma prefixOf_app_r {A} (xs ys rest : list A) :
  prefixOf xs ys -> prefixOf xs (ys ++ rest).
Proof. intros [more ->]. exists (more ++ rest)%list. now rewrite app_assoc. Qed.

Lemma forwardUserMessages_user `{Engine} (chat : string) (message : Message)
    (rest : list Message) (w : World) :
  isUser (role message) = true ->
  let text := GeminiClient.content message in
  let sent := emit (EvRequest (SendMessage chat text)) (emit (EvLog LogPrompt text) w) in
  forwardUserMessages chat (message :: rest) w
  = match nextReply w (SendMessage chat text) with
    | After d (Fulfilled _) =>
        forwardUserMessages chat rest (advanceTo (now w + d) sent)
    | After d (Rejected e) => (Raised e, advanceTo (now w + d) sent)
    | NoReply => (Pending, sent)
    end.
Proof.
  intros Huser text sent.
  cbn [forwardUserMessages]. rewrite Huser. unfold log.
  cbn [bind ret Monad_Async]. fold text.
  rewrite sendMessage_run, nextReply_log.
  destruct (nextReply w (SendMessage chat text)) as [d [r | e] |]; reflexivity.
Qed.

Lemma forwardUserMessages_skip `{Engine} (chat : string) (message : Message)
    (rest : list Message) (w : World) :
  isUser (role message) = false ->
  forwardUserMessages chat (message :: rest) w = forwardUserMessages chat rest w.
Proof.
  intros Huser. cbn [forwardUserMessages]. rewrite Huser. reflexivity.
Qed.

(** The loop in any world: it sends the texts of the user messages in order
    and stops at the first send that is rejected or never answered. *)
Lemma forwardUserMessages_any `{Engine} (chat : string) (messages : list Message) :
  forall w : World,
    exists out w' evs,
      forwardUserMessages chat messages w = (out, w')
      /\ sameSetup w w'
      /\ trace w' = (trace w ++ evs)%list
      /\ prefixOf (requestsOf evs) (map (SendMessage chat) (userContents messages))
      /\ match out with
         | Done _ => requestsOf evs = map (SendMessage chat) (userContents messages)
         | Raised _ | Pending => True
         | Exited _ | Exhausted => False
         end.
Proof.
  induction messages as [| message rest IH]; intros w.
  - exists (Done tt), w, []. split; [reflexivity |]. split; [apply sameSetup_refl |].
    split; [now rewrite app_nil_r |]. split; [apply prefixOf_refl | reflexivity].
  - destruct (isUser (role message)) eqn:Huser.
    + rewrite (forwardUserMessages_user chat message rest w Huser).
      unfold userContents in *. cbn [filter]. rewrite Huser. cbn [map].
      set (text := GeminiClient.content message).
      destruct (nextReply w (SendMessage chat text)) as [d [r | e] |].
      * destruct (IH (advanceTo (now w + d)
                        (emit (EvRequest (SendMessage chat text))
                           (emit (EvLog LogPrompt text) w))))
          as (out & w2 & evs & Hrun & Hsame & Htr & Hpre & Hout).
        exists out, w2, ([EvLog LogPrompt text; EvRequest (SendMessage chat text)]
                         ++ evs)%list.
        split; [exact Hrun |]. split; [exact Hsame |].
        split; [rewrite Htr; cbn; rewrite <- !app_assoc; reflexivity |].
        rewrite requestsOf_app. cbn [requestsOf app].
        split; [now apply prefixOf_cons |].
        destruct out; try exact Hout. now rewrite Hout.
      * eexists (Raised e), _, [EvLog LogPrompt text; EvRequest (SendMessage chat text)].
        split; [reflexivity |]. split; [repeat split |].
        split; [cbn; rewrite <- !app_assoc; reflexivity |].
        split; [| exact I].
        apply (prefixOf_app [SendMessage chat text]).
      * eexists Pending, _, [EvLog LogPrompt text; EvRequest (SendMessage chat text)].
        split; [reflexivity |]. split; [repeat split |].
        split; [cbn; rewrite <- !app_assoc; reflexivity |].
        split; [| exact I].
        apply (prefixOf_app [SendMessage chat text]).
    + rewrite (forwardUserMessages_skip chat message rest w Huser).
      unfold userContents in *. cbn [filter]. rewrite Huser. apply IH.
Qed.

(** X3. In every world with the chosen handle initialised, what
    [generateWithChat] sends is an initial part of its plan: the texts of the
    user messages in order, then the text of the last message once more when
    that message is a user's.  Nothing else is sent, in particular no text of
    a model message, and every request goes to the chosen model.  When the
    function returns, the whole plan was sent.  The module globals are not
    touched. *)
Theorem chat_requests_follow_plan `{Engine} (messages : list Message) (useProModel : bool)
    (w : World) (m : string) :
  (if useProModel then geminiProModel w else geminiFlashModel w) = Some m ->
  let res := generateWithChat messages useProModel w in
  prefixOf (issued w (snd res)) (map (SendMessage m) (chatPlan messages))
  /\ sameSetup w (snd res)
  /\ (forall t, fst res = Done t ->
      issued w (snd res) = map (SendMessage m) (chatPlan messages))
  /\ fst res <> Exhausted /\ (forall code, fst res <> Exited code).
Proof.
  intros Hm res. subst res. rewrite (generateWithChat_start messages useProModel w m Hm).
  set (w0 := emit (EvLog LogDebug "Starting chat with messages:") w).
  destruct (forwardUserMessages_any m messages w0)
    as (out & w1 & evs & -> & Hsame & Htr & Hpre & Hout).
  assert (Hsame0 : sameSetup w w1)
    by (apply (sameSetup_trans _ w0); [apply sameSetup_log | exact Hsame]).
  assert (Hsame1 : forall ev t, sameSetup w (emit ev (advanceTo t w1))).
  { intros ev t. apply (sameSetup_trans _ w1); [exact Hsame0 | repeat split]. }
  assert (Hsame2 : forall ev ev' ev'' t,
             sameSetup w (emit ev (advanceTo t (emit ev' (emit ev'' w1))))).
  { intros ev ev' ev'' t. apply (sameSetup_trans _ w1); [exact Hsame0 | repeat split]. }
  assert (Hissued : forall w' tail,
             trace w' = (trace w1 ++ tail)%list ->
             issued w w' = (requestsOf evs ++ requestsOf tail)%list).
  { intros w' tail Htail.
    rewrite (issued_app w w' ([EvLog LogDebug "Starting chat with messages:"]
                              ++ evs ++ tail)).
    - now rewrite !requestsOf_app.
    - rewrite Htail, Htr. unfold w0. cbn [trace emit]. now rewrite <- !app_assoc. }
  unfold chatPlan. rewrite map_app.
  destruct out as [[] | e | | code |]; try contradiction.
  - rewrite Hout in Hissued.
    destruct (lastOf messages) as [lastMessage |].
    + destruct (isUser (role lastMessage)).
      * set (text := GeminiClient.content lastMessage).
        assert (Hsent : forall w' tail,
                   trace w' = (trace w1 ++ [EvLog LogPrompt text;
                                           EvRequest (SendMessage m text)] ++ tail)%list ->
                   requestsOf tail = [] ->
                   issued w w' = (map (SendMessage m) (userContents messages)
                                  ++ [SendMessage m text])%list).
        { intros w' tail Htail Hnone. rewrite (Hissued w' _ Htail).
          rewrite requestsOf_app, Hnone. reflexivity. }
        cbn zeta. fold text.
        destruct (nextReply w1 (SendMessage m text)) as [d [[| t | e] | e] |];
          cbn [fst snd map].
        all: try (erewrite Hsent;
                  [| cbn [trace emit advanceTo]; rewrite <- !app_assoc; reflexivity
                   | reflexivity]).
        all: try (erewrite (Hsent _ []);
                  [| cbn [trace emit advanceTo]; rewrite <- !app_assoc; reflexivity
                   | reflexivity]).
        all: split; [apply prefixOf_refl |].
        all: split; [first [apply Hsame2 | apply (sameSetup_trans _ w1);
                                            [exact Hsame0 | repeat split]] |].
        all: split; [intros; reflexivity |].
        all: split; [discriminate | intros; discriminate].
      * cbn [fst snd map]. rewrite app_nil_r.
        rewrite (Hissued w1 []) by now rewrite app_nil_r.
        cbn [requestsOf]. rewrite app_nil_r.
        split; [apply prefixOf_refl |]. split; [exact Hsame0 |].
        split; [intros; reflexivity |].
        split; [discriminate | intros; discriminate].
    + cbn [fst snd map]. rewrite app_nil_r.
      erewrite Hissued by (cbn [trace emit]; reflexivity).
      cbn [requestsOf]. rewrite app_nil_r.
      split; [apply prefixOf_refl |].
      split; [apply (sameSetup_trans _ w1); [exact Hsame0 | repeat split] |].
      split; [intros ? [=] |].
      split; [discriminate | intros; discriminate].
  - cbn [fst snd].
    erewrite Hissued by (cbn [trace emit]; reflexivity).
    cbn [requestsOf]. rewrite app_nil_r.
    split; [now apply prefixOf_app_r |].
    split; [apply (sameSetup_trans _ w1); [exact Hsame0 | repeat split] |].
    split; [intros ? [=] |].
    split; [discriminate | intros; discriminate].
  - cbn [fst snd].
    rewrite (Hissued w1 []) by now rewrite app_nil_r.
    cbn [requestsOf]. rewrite app_nil_r.
    split; [now apply prefixOf_app_r |]. split; [exact Hsame0 |].
    split; [intros ? [=] |].
    split; [discriminate | intros; discriminate].
Qed.

Lemma chat_requests_follow_plan_witness :
  prefixOf
    (issued (Node.ready (Node.rejectingAt 1 (ErrorObj "500")))
       (snd (generateWithChat (H := Node.engine) Node.chatter true
               (Node.ready (Node.rejectingAt 1 (ErrorObj "500"))))))
    (map (SendMessage "gemini-2.5-pro-preview-03-25") (chatPlan Node.chatter))
  /\ chatPlan Node.chatter = ["hello"; "plan?"; "plan?"].
Proof.
  split; [| reflexivity].
  exact (proj1 (chat_requests_follow_plan (H := Node.engine) Node.chatter true
                  (Node.ready (Node.rejectingAt 1 (ErrorObj "500")))
                  "gemini-2.5-pro-preview-03-25" eq_refl)).
Defined.

(** X4. When the last message is the model's and the chat fulfils the sends
    of the loop, [generateWithChat] returns the text of that last message as
    it is.  It has sent the text of each user message once, in order; the
    text of the last message is not sent and no answer of the upstream is
    used. *)
Theorem chat_returns_trailing_model_message `{Engine} (messages : list Message)
    (useProModel : bool) (lastMessage : Message) (w : World) (m : string) :
  (if useProModel then geminiProModel w else geminiFlashModel w) = Some m ->
  lastOf messages = Some lastMessage ->
  role lastMessage = Model ->
  loopAnswered (upstream w) (requestsOf (trace w)) m (userContents messages) ->
  let res := generateWithChat messages useProModel w in
  fst res = Done (GeminiClient.content lastMessage)
  /\ issued w (snd res) = map (SendMessage m) (userContents messages).
Proof.
  intros Hm Hlast Hrole Hans res. subst res.
  rewrite (generateWithChat_start messages useProModel w m Hm).
  set (w0 := emit (EvLog LogDebug "Starting chat with messages:") w).
  assert (Hans0 : loopAnswered (upstream w0) (requestsOf (trace w0)) m
                    (userContents messages)).
  { unfold w0. cbn [trace emit upstream]. rewrite requestsOf_app.
    cbn [requestsOf]. now rewrite app_nil_r. }
  destruct (forwardUserMessages_run m messages w0 Hans0)
    as (w1 & evs & -> & Hsame & Htr & Hreq).
  rewrite Hlast, Hrole. cbn [isUser fst snd].
  split; [reflexivity |].
  rewrite (issued_app w w1 ([EvLog LogDebug "Starting chat with messages:"] ++ evs)).
  - rewrite requestsOf_app, Hreq. reflexivity.
  - rewrite Htr. unfold w0. cbn [trace emit]. now rewrite <- app_assoc.
Qed.

Lemma chat_returns_trailing_model_message_witness :
  fst (generateWithChat (H := Node.engine) Node.modelLast false
         (Node.ready (Node.answering "ignored")))
  = Done "here is a plan"
  /\ issued (Node.ready (Node.answering "ignored"))
       (snd (generateWithChat (H := Node.engine) Node.modelLast false
               (Node.ready (Node.answering "ignored"))))
     = [SendMessage "gemini-2.5-flash-preview-04-17" "hello";
        SendMessage "gemini-2.5-flash-preview-04-17" "plan?"].
Proof.
  exact (chat_returns_trailing_model_message (H := Node.engine) Node.modelLast false
           {| role := Model; GeminiClient.content := "here is a plan" |}
           (Node.ready (Node.answering "ignored")) "gemini-2.5-flash-preview-04-17"
           eq_refl eq_refl eq_refl
           (conj (ex_intro _ 40%N (ex_intro _ (WithText "ignored") eq_refl))
              (conj (ex_intro _ 40%N (ex_intro _ (WithText "ignored") eq_refl)) I))).
Defined.

(** X5. On the empty list of messages [generateWithChat] throws the
    [TypeError] of reading [role] of [undefined]: it has started the chat and
    logged, and has sent nothing. *)
Theorem chat_rejects_empty_list `{Engine} (useProModel : bool) (w : World) (m : string) :
  (if useProModel then geminiProModel w else geminiFlashModel w) = Some m ->
  let res := generateWithChat [] useProModel w in
  fst res = Raised (typeError "role")
  /\ issued w (snd res) = []
  /\ sameSetup w (snd res).
Proof.
  intros Hm res. subst res.
  rewrite (generateWithChat_start [] useProModel w m Hm).
  cbn [forwardUserMessages ret Monad_Async lastOf length nth_error Nat.sub fst snd].
  split; [reflexivity |]. split; [| repeat split].
  erewrite issued_app; [| cbn [trace emit]; rewrite <- app_assoc; reflexivity].
  reflexivity.
Qed.

Lemma chat_rejects_empty_list_witness :
  fst (generateWithChat (H := Node.engine) [] true (Node.ready (Node.answering "x")))
  = Raised (ErrorObj "Cannot read properties of undefined (reading 'role')").
Proof.
  exact (proj1 (chat_rejects_empty_list (H := Node.engine) true
                  (Node.ready (Node.answering "x")) "gemini-2.5-pro-preview-03-25"
                  eq_refl)).
Defined.

(** The loop when one of its sends is rejected. *)
Lemma forwardUserMessages_rejected `{Engine} (chat : string) (messages : list Message) :
  forall (w : World) (pre : list string) (t : string) (post : list string) d e,
    userContents messages = (pre ++ t :: post)%list ->
    loopAnswered (upstream w) (requestsOf (trace w)) chat pre ->
    upstream w (requestsOf (trace w) ++ map (SendMessage chat) pre)%list
      (SendMessage chat t) = After d (Rejected e) ->
    exists w' evs,
      forwardUserMessages chat messages w = (Raised e, w')
      /\ trace w' = (trace w ++ evs)%list
      /\ requestsOf evs = map (SendMessage chat) (pre ++ [t]).
Proof.
  induction messages as [| message rest IH]; intros w pre t post d e Hsplit Hans Hrej.
  - destruct pre; discriminate Hsplit.
  - destruct (isUser (role message)) eqn:Huser.
    + rewrite (forwardUserMessages_user chat message rest w Huser).
      unfold userContents in Hsplit. cbn [filter] in Hsplit. rewrite Huser in Hsplit.
      cbn [map] in Hsplit.
      set (text := GeminiClient.content message) in *.
      destruct pre as [| p pre].
      * cbn [app map] in Hsplit, Hrej. injection Hsplit as Htext Hrest.
        rewrite app_nil_r in Hrej. unfold nextReply. rewrite Htext, Hrej.
        do 2 eexists. split; [reflexivity |].
        split; [cbn; rewrite <- !app_assoc; reflexivity | reflexivity].
      * cbn [app] in Hsplit. injection Hsplit as Htext Hrest.
        cbn [loopAnswered] in Hans. destruct Hans as ((d1 & r1 & Hreply) & Hans).
        unfold nextReply. rewrite Htext, Hreply.
        set (w1 := advanceTo (now w + d1)
                     (emit (EvRequest (SendMessage chat p))
                        (emit (EvLog LogPrompt p) w))).
        assert (Hreq1 : requestsOf (trace w1)
                        = (requestsOf (trace w) ++ [SendMessage chat p])%list).
        { unfold w1. cbn [trace emit advanceTo]. rewrite !requestsOf_app.
          cbn [requestsOf]. now rewrite app_nil_r. }
        destruct (IH w1 pre t post d e Hrest) as (w2 & evs & Hrun & Htr & Hreq).
        { rewrite Hreq1. exact Hans. }
        { rewrite Hreq1, <- app_assoc. exact Hrej. }
        exists w2, ([EvLog LogPrompt p; EvRequest (SendMessage chat p)] ++ evs)%list.
        split; [exact Hrun |].
        split; [rewrite Htr; cbn; rewrite <- !app_assoc; reflexivity |].
        rewrite requestsOf_app, Hreq. reflexivity.
    + rewrite (forwardUserMessages_skip chat message rest w Huser).
      unfold userContents in Hsplit. cbn [filter] in Hsplit. rewrite Huser in Hsplit.
      apply (IH w pre t post d e Hsplit Hans Hrej).
Qed.

(** X6. When the chat fulfils the sends of the first user texts [pre] and
    rejects the send of the next user text [t] with [e], [generateWithChat]
    throws [e] as it is; it has sent [pre] and [t] and none of the user texts
    after [t]. *)
Theorem chat_stops_at_rejected_send `{Engine} (messages : list Message)
    (useProModel : bool) (w : World) (m : string)
    (pre : list string) (t : string) (post : list string) (d : N) (e : Thrown) :
  (if useProModel then geminiProModel w else geminiFlashModel w) = Some m ->
  userContents messages = (pre ++ t :: post)%list ->
  loopAnswered (upstream w) (requestsOf (trace w)) m pre ->
  upstream w (requestsOf (trace w) ++ map (SendMessage m) pre)%list (SendMessage m t)
  = After d (Rejected e) ->
  let res := generateWithChat messages useProModel w in
  fst res = Raised e
  /\ issued w (snd res) = map (SendMessage m) (pre ++ [t]).
Proof.
  intros Hm Hsplit Hans Hrej res. subst res.
  rewrite (generateWithChat_start messages useProModel w m Hm).
  set (w0 := emit (EvLog LogDebug "Starting chat with messages:") w).
  assert (Hreq0 : requestsOf (trace w0) = requestsOf (trace w)).
  { unfold w0. cbn [trace emit]. rewrite requestsOf_app. cbn [requestsOf].
    now rewrite app_nil_r. }
  destruct (forwardUserMessages_rejected m messages w0 pre t post d e Hsplit)
    as (w1 & evs & -> & Htr & Hreq).
  { rewrite Hreq0. exact Hans. }
  { rewrite Hreq0. exact Hrej. }
  cbn [fst snd]. split; [reflexivity |].
  erewrite issued_app.
  2: { cbn [trace emit]. rewrite Htr. unfold w0. cbn [trace emit].
       rewrite <- !app_assoc. reflexivity. }
  rewrite !requestsOf_app, Hreq. cbn [requestsOf app]. now rewrite app_nil_r.
Qed.

Lemma chat_stops_at_rejected_send_witness :
  fst (generateWithChat (H := Node.engine) Node.chatter true
         (Node.ready (Node.rejectingAt 0 (ErrorObj "500"))))
  = Raised (ErrorObj "500")
  /\ issued (Node.ready (Node.rejectingAt 0 (ErrorObj "500")))
       (snd (generateWithChat (H := Node.engine) Node.chatter true
               (Node.ready (Node.rejectingAt 0 (ErrorObj "500")))))
     = [SendMessage "gemini-2.5-pro-preview-03-25" "hello"].
Proof.
  exact (chat_stops_at_rejected_send (H := Node.engine) Node.chatter true
           (Node.ready (Node.rejectingAt 0 (ErrorObj "500")))
           "gemini-2.5-pro-preview-03-25" [] "hello" ["plan?"] 40%N (ErrorObj "500")
           eq_refl eq_refl I eq_refl).
Defined.

(** X7. Before [initGeminiClient] has run the handles are [undefined]: each
    generation function throws a [TypeError] and makes no request. *)
Theorem generation_before_initialisation `{Engine} (prompt : string)
    (messages : list Message) (useProModel : bool) (w : World) :
  geminiProModel w = None ->
  geminiFlashModel w = None ->
  (fst (generateWithGeminiPro prompt w) = Raised (typeError "generateContent")
   /\ issued w (snd (generateWithGeminiPro prompt w)) = [])
  /\ (fst (generateWithGeminiFlash prompt w) = Raised (typeError "generateContent")
      /\ issued w (snd (generateWithGeminiFlash prompt w)) = [])
  /\ (fst (generateWithChat messages useProModel w) = Raised (typeError "startChat")
      /\ issued w (snd (generateWithChat messages useProModel w)) = []).
Proof.
  intros Hpro Hflash.
  split; [| split].
  - rewrite (generateWithGeminiPro_unready prompt w Hpro). cbn [fst snd].
    split; [reflexivity |].
    erewrite issued_app; [| cbn [trace emit]; rewrite <- app_assoc; reflexivity].
    reflexivity.
  - assert (Hrun : generateWithGeminiFlash prompt w
                   = (Raised (typeError "generateContent"),
                      emit flashFailureLog (emit (EvLog LogPrompt prompt) w))).
    { unfold generateWithGeminiFlash, generateContent, callUpstream, getFlashModel, log.
      cbn. rewrite Hflash. reflexivity. }
    rewrite Hrun. cbn [fst snd].
    split; [reflexivity |].
    erewrite issued_app; [| cbn [trace emit]; rewrite <- app_assoc; reflexivity].
    reflexivity.
  - unfold generateWithChat. cbn [catch Exc_Async bind Monad_Async].
    replace ((if useProModel then getProModel else getFlashModel) w)
      with (@Done (option string) None, w)
      by (destruct useProModel; unfold getProModel, getFlashModel;
          now rewrite ?Hpro, ?Hflash).
    cbn [startChat raise Exc_Async log bind Monad_Async fst snd].
    split; [reflexivity |].
    erewrite issued_app; [| cbn [trace emit]; reflexivity]. reflexivity.
Qed.

Lemma generation_before_initialisation_witness :
  fst (generateWithGeminiPro (H := Node.engine) "2+2?" (Node.fresh (Node.answering "4")))
  = Raised (ErrorObj "Cannot read properties of undefined (reading 'generateContent')")
  /\ fst (generateWithChat (H := Node.engine) Node.chatter true
            (Node.fresh (Node.answering "4")))
     = Raised (ErrorObj "Cannot read properties of undefined (reading 'startChat')").
Proof.
  destruct (generation_before_initialisation (H := Node.engine) "2+2?" Node.chatter true
              (Node.fresh (Node.answering "4")) eq_refl eq_refl)
    as ((Hpro & _) & _ & (Hchat & _)).
  split; [exact Hpro | exact Hchat].
Defined.

(* ===================================================================== *)
(** * More on the brainstorm tool                                         *)
(* ===================================================================== *)

(** X8. A later round ([round !== 1]) with a caller input, on an
    initialised client, makes exactly one request on the Pro handle.  Its
    prompt contains the problem text, the rendered round number, the caller
    input uncut and the rendering of every entry of the history; with an
    empty or absent history it is a fixed text around the round number, the
    problem and the caller input.  The text the model answers is returned as
    it is. *)
Theorem later_round_shape `{Engine} prompt round claudeInput history
    (w : World) (m : string) :
  strictEq round one = false ->
  falsy claudeInput = false ->
  geminiProModel w = Some m ->
  let h := match history with Some h => h | None => [] end in
  let p := collaborationPrompt prompt round (valueOf claudeInput) h in
  let res := brainstormHandler prompt round claudeInput history w in
  issued w (snd res) = [GenerateContent m p]
  /\ (contains p prompt /\ contains p (valueOf claudeInput)
      /\ contains p (numberToString round))
  /\ (forall entry, In entry h -> contains p (renderEntry entry))
  /\ (exists a b c d,
        forall prompt' round' input',
          collaborationPrompt prompt' round' input' []
          = a ++ numberToString round' ++ b ++ prompt' ++ c ++ input' ++ d)
  /\ (forall d t, nextReply w (GenerateContent m p) = After d (Fulfilled (WithText t)) ->
      fst res = Done (textResult t))
  /\ (forall t', textResult t'
                 = {| content := [ {| type := "text"; text := t' |} ]; isError := None |}).
Proof.
  intros Hround Hinput Hm h p res. subst res.
  rewrite brainstormHandler_run, Hround, Hinput. fold h p.
  destruct (boundary_generate "Error in brainstorming: " p ConsoleLog
              ("Brainstorming round " ++ numberToString round ++ " with Gemini")
              w m Hm) as (Hissued & _ & _ & Htext & _).
  split; [exact Hissued |].
  split; [split; [| split] |].
  - unfold p, collaborationPrompt, lines. apply contains_concat.
    do 4 right. left. reflexivity.
  - unfold p, collaborationPrompt, lines. apply contains_concat.
    do 10 right. left. reflexivity.
  - unfold p, collaborationPrompt, lines.
    eapply contains_trans; [apply contains_concat; right; left; reflexivity |].
    auto with strings.
  - split; [| split; [| split; [exact Htext | intros t'; reflexivity]]].
    + intros entry Hin.
      apply (contains_trans _ (historyText h)).
      * apply collaborationPrompt_contains_historyText. intros E. rewrite E in Hin.
        destruct Hin.
      * now apply historyText_contains.
    + exists (lines [ ""; "You are in round " ]).
      exists (lines [ " of a collaborative brainstorming session about this request:";
                      ""; "---"; "" ]).
      exists (lines [ ""; "---"; ""; ""; ""; "Claude's latest perspective:"; "" ]).
      exists (lines [ ""; "";
                      "Based on Claude's perspective, please:";
                      "1. Identify areas where you agree with Claude";
                      "2. Note any valuable insights from Claude that you hadn't considered";
                      "3. Respectfully point out any potential issues with Claude's approach";
                      "4. Build upon both your ideas to refine the approach";
                      "5. Suggest concrete next steps or details to consider";
                      "";
                      "Remember, this is a collaborative process to develop the best possible solution.";
                      "" ]).
      intros prompt' round' input'.
      unfold collaborationPrompt, lines. cbn [String.concat length Nat.ltb Nat.leb].
      rewrite !append_assoc. reflexivity.
Qed.

Lemma later_round_shape_witness :
  issued (Node.ready (Node.answering "B"))
    (snd (brainstormHandler (H := Node.engine) "Build a todo app" 2%Z (Some "Y")
            (Some [Node.roundOne]) (Node.ready (Node.answering "B"))))
  = [GenerateContent "gemini-2.5-pro-preview-03-25"
       (collaborationPrompt (H := Node.engine) "Build a todo app" 2%Z "Y" [Node.roundOne])]
  /\ contains (collaborationPrompt (H := Node.engine) "Build a todo app" 2%Z "Y" [Node.roundOne])
       (renderEntry Node.roundOne)
  /\ fst (brainstormHandler (H := Node.engine) "Build a todo app" 2%Z (Some "Y")
            (Some [Node.roundOne]) (Node.ready (Node.answering "B")))
     = Done (textResult "B")
  /\ textResult "B"
     = {| content := [ {| type := "text"; text := "B" |} ]; isError := None |}.
Proof.
  destruct (later_round_shape (H := Node.engine) "Build a todo app" 2%Z (Some "Y")
              (Some [Node.roundOne]) (Node.ready (Node.answering "B"))
              "gemini-2.5-pro-preview-03-25" eq_refl eq_refl eq_refl)
    as (Hissued & _ & Hentries & _ & Htext & Hpayload).
  split; [exact Hissued |].
  split; [exact (Hentries Node.roundOne (or_introl eq_refl)) |].
  split; [exact (Htext 40%N "B" eq_refl) | exact (Hpayload "B")].
Defined.

(** X9. The transcript is bounded by the number of rounds, not by the size
    of what was said: its length is at most the sum, over the entries, of
    1038 plus the length of the rendered round number. *)
Theorem transcript_size_bound `{Engine} (history : list BrainstormRound) :
  String.length (historyText history)
  <= list_sum (map (fun entry =>
                      1038 + String.length (numberToString (Brainstorm.round entry)))
                 history).
Proof.
  apply historyText_length_bound.
Qed.

Lemma concat_app (sep : string) (xs ys : list string) :
  xs <> [] -> ys <> [] ->
  String.concat sep (xs ++ ys) = String.concat sep xs ++ sep ++ String.concat sep ys.
Proof.
  intros Hxs Hys.
  induction xs as [| x [| x' xs'] IH]; [congruence | |].
  - destruct ys as [| y ys']; [congruence | reflexivity].
  - change (String.concat sep ((x :: x' :: xs') ++ ys))
      with (x ++ sep ++ String.concat sep ((x' :: xs') ++ ys)).
    rewrite IH by discriminate.
    change (String.concat sep (x :: x' :: xs'))
      with (x ++ sep ++ String.concat sep (x' :: xs')).
    now rewrite !append_assoc.
Qed.

(** X10. The transcript grows at its end: the transcript of a history
    followed by more rounds is the transcript of the history, a newline, and
    the transcript of the further rounds; what was rendered for the earlier
    rounds does not change. *)
Theorem transcript_grows_at_the_end `{Engine} (earlier later : list BrainstormRound) :
  earlier <> [] -> later <> [] ->
  historyText (earlier ++ later) = historyText earlier ++ nl ++ historyText later.
Proof.
  intros He Hl. unfold historyText, join. rewrite map_app.
  apply concat_app.
  - destruct earlier; [congruence | discriminate].
  - destruct later; [congruence | discriminate].
Qed.

Lemma transcript_grows_at_the_end_witness :
  historyText [Node.roundOne; Node.roundTwo]
  = renderEntry Node.roundOne ++ nl ++ renderEntry Node.roundTwo.
Proof.
  apply (transcript_grows_at_the_end (H := Node.engine) [Node.roundOne] [Node.roundTwo]);
    discriminate.
Defined.

(** X11. In every world and for all arguments, initialised or not, either
    handler makes at most one upstream request per invocation and leaves the
    environment, the upstream and the module globals as they were. *)
Theorem handlers_make_at_most_one_request `{Engine} prompt round claudeInput history
    (synthesisHistory : list BrainstormRound) (w : World) :
  (length (issued w (snd (brainstormHandler prompt round claudeInput history w))) <= 1
   /\ sameSetup w (snd (brainstormHandler prompt round claudeInput history w)))
  /\ (length (issued w (snd (synthesisHandler prompt synthesisHistory w))) <= 1
      /\ sameSetup w (snd (synthesisHandler prompt synthesisHistory w))).
Proof.
  assert (G : forall label p ch pre,
             let res := boundary label (generateWithGeminiPro p (emit (EvLog ch pre) w)) in
             length (issued w (snd res)) <= 1 /\ sameSetup w (snd res)).
  { intros label p ch pre res. destruct (geminiProModel w) as [m |] eqn:Hm.
    - destruct (boundary_generate label p ch pre w m Hm) as (Hissued & Hsame & _).
      fold res in Hissued, Hsame. rewrite Hissued. split; [cbn; lia | exact Hsame].
    - destruct (boundary_unready label p ch pre w Hm) as (_ & Hissued & Hsame).
      fold res in Hissued, Hsame. rewrite Hissued. split; [cbn; lia | exact Hsame]. }
  split.
  - rewrite brainstormHandler_run.
    destruct (strictEq round one); [apply G |].
    destruct (falsy claudeInput); [| apply G].
    cbn [snd]. split; [| apply sameSetup_log].
    erewrite issued_app; [| cbn [trace emit]; reflexivity]. cbn. lia.
  - rewrite synthesisHandler_run. apply G.
Qed.

(* ===================================================================== *)
(** * More on the initialisation                                          *)
(* ===================================================================== *)

Lemma connectsOf_app (a b : list Event) :
  connectsOf (a ++ b) = connectsOf a + connectsOf b.
Proof.
  induction a as [| [] a IH]; simpl; rewrite ?IH; reflexivity.
Qed.

Lemma inTime_le (tie : bool) (d : N) : inTime tie 10000 d = true -> (d <= 10000)%N.
Proof.
  unfold inTime. intros Hin.
  destruct (N.ltb_spec d 10000); [lia |].
  destruct (N.eqb_spec d 10000); [lia | discriminate Hin].
Qed.

(** How long one round of the loop takes. *)
Lemma attempt_time `{Engine} pro flash (a : nat) (w : World) :
  geminiFlashModel w = Some flash ->
  exists out w',
    catch (testConnection pro flash a) (connectionFailed false a) w = (out, w')
    /\ sameSetup w w'
    /\ (now w <= now w')%N
    /\ match out with
       | Done true => (now w' <= now w + 10000)%N
       | Done false => (now w' <= now w + 12000)%N /\ a < maxAttempts
       | Raised _ => (now w' <= now w + 10000)%N
       | Pending | Exited _ | Exhausted => False
       end
    /\ connectsOf (trace w') = connectsOf (trace w).
Proof.
  intros Hf. cbn [catch Exc_Async]. rewrite (testConnection_run pro flash a w Hf).
  assert (Failed : forall e t, (t <= 10000)%N ->
    exists out w',
      connectionFailed false a e (advanceTo (now w + t) (attemptSent flash a w))
      = (out, w')
      /\ sameSetup w w'
      /\ (now w <= now w')%N
      /\ match out with
         | Done true => (now w' <= now w + 10000)%N
         | Done false => (now w' <= now w + 12000)%N /\ a < maxAttempts
         | Raised _ => (now w' <= now w + 10000)%N
         | Pending | Exited _ | Exhausted => False
         end
      /\ connectsOf (trace w') = connectsOf (trace w)).
  { intros e t Ht. unfold connectionFailed, log, sleep.
    cbn -[N.add N.max natToString append Nat.leb maxAttempts].
    destruct (maxAttempts <=? a)%nat eqn:Last; do 2 eexists;
      (split; [reflexivity |]); (split; [repeat split |]).
    - split; [cbn; lia |]. split; [cbn; lia |].
      unfold attemptSent. cbn [trace emit advanceTo].
        rewrite !connectsOf_app. cbn. lia.
    - split; [cbn; lia |]. split; [cbn; apply Nat.leb_gt in Last; lia |].
      unfold attemptSent. cbn [trace emit advanceTo].
        rewrite !connectsOf_app. cbn. lia. }
  destruct (nextReply w (GenerateContent flash "Test connection")) as [d s |].
  - destruct (inTime (firstOnTie w) 10000 d) eqn:Hin.
    + apply inTime_le in Hin.
      destruct s as [[| t | e] | e]; try (apply Failed; exact Hin).
      * do 2 eexists. split; [reflexivity |]. split; [repeat split |].
        split; [cbn; lia |]. split; [cbn; lia |].
        unfold attemptSent. cbn [trace emit advanceTo].
        rewrite !connectsOf_app. cbn. lia.
      * do 2 eexists. split; [reflexivity |]. split; [repeat split |].
        split; [cbn; lia |]. split; [cbn; lia |].
        unfold attemptSent. cbn [trace emit advanceTo].
        rewrite !connectsOf_app. cbn. lia.
    + apply Failed. lia.
  - apply Failed. lia.
Qed.

Lemma connectLoop_time `{Engine} pro flash (fuel : nat) :
  forall (connected : bool) (a : nat) (w : World),
    geminiFlashModel w = Some flash ->
    (now w <= now (snd (connectLoop pro flash fuel connected a w))
     <= now w + (if connected then 0 else budget a))%N.
Proof.
  induction fuel as [| fuel IH]; intros connected a w Hf.
  - cbn [connectLoop].
    destruct (negb connected && (a <? maxAttempts)%nat); cbn [snd exhausted ret Monad_Async];
      lia.
  - destruct connected; [rewrite connectLoop_connected; cbn [snd]; lia |].
    destruct (Nat.ltb_spec a maxAttempts) as [Ha | Ha].
    2: { rewrite connectLoop_spent by exact Ha. cbn [snd]. lia. }
    rewrite connectLoop_unfold by exact Ha.
    destruct (attempt_time pro flash (S a) w Hf)
      as (out & w1 & -> & Hsame & Hle & Hout & _).
    assert (Hf1 : geminiFlashModel w1 = Some flash).
    { destruct Hsame as (_ & _ & _ & _ & _ & Hfl). now rewrite Hfl. }
    unfold maxAttempts in Ha.
    destruct out as [[|] | e | | code |]; try contradiction.
    + specialize (IH true (S a) w1 Hf1). cbn iota in IH.
      assert (10000 <= budget a)%N
        by (destruct a as [| [| [| a]]]; try lia; vm_compute; discriminate).
      lia.
    + specialize (IH false (S a) w1 Hf1). cbn iota in IH.
      destruct Hout as (Hout & Hlast). unfold maxAttempts in Hlast.
      assert (12000 + budget (S a) <= budget a)%N
        by (destruct a as [| [| a]]; try lia; vm_compute; discriminate).
      lia.
    + cbn [snd].
      assert (10000 <= budget a)%N
        by (destruct a as [| [| [| a]]]; try lia; vm_compute; discriminate).
      lia.
Qed.

(** X12. [initGeminiClient] always settles, and soon: whatever the upstream
    does, even if it never answers, the call returns or throws, and at most
    34 seconds (three attempts of 10 seconds and two pauses of 2 seconds)
    have passed. *)
Theorem initialisation_settles_in_time `{Engine} (w : World) :
  (fst (initGeminiClient w) = Done tt \/ exists e, fst (initGeminiClient w) = Raised e)
  /\ (now w <= now (snd (initGeminiClient w)) <= now w + 34000)%N.
Proof.
  split.
  - destruct (initGeminiClient_total w) as (w' & [-> | (e & ->)]);
      [left; reflexivity | right; exists e; reflexivity].
  - rewrite initGeminiClient_unfold.
    destruct (falsy (env w "GEMINI_API_KEY")); [cbn [snd]; lia |].
    pose proof (connectLoop_time (proModelName w) (flashModelName w) maxAttempts
                  false 0 (configured w) eq_refl) as Htime.
    change (now (configured w)) with (now w) in Htime.
    change (budget 0) with 34000%N in Htime.
    destruct (connectLoop _ _ _ _ _ _) as [[[] | e | | code |] w1];
      cbn [snd] in *; exact Htime.
Qed.

(** X13. Without a credential (the variable is unset or empty)
    [initGeminiClient] throws at once and leaves the world as it was: no
    handle is created, nothing is logged and no request is made.  This holds
    for both revisions of the function. *)
Theorem initialisation_requires_credential `{Engine} (w : World) :
  falsy (env w "GEMINI_API_KEY") = true ->
  initGeminiClient w
  = (Raised (ErrorObj "GEMINI_API_KEY environment variable is required"), w)
  /\ GeminiClientOnce.initGeminiClient w
     = (Raised (ErrorObj "GEMINI_API_KEY environment variable is required"), w).
Proof.
  intros Hcred. split.
  - now rewrite initGeminiClient_unfold, Hcred.
  - unfold GeminiClientOnce.initGeminiClient, getEnv. cbn [bind Monad_Async].
    now rewrite Hcred.
Qed.

Lemma initialisation_requires_credential_witness :
  initGeminiClient (H := Node.engine) (Node.freshWith Node.noEnv (Node.answering "pong"))
  = (Raised (ErrorObj "GEMINI_API_KEY environment variable is required"),
     Node.freshWith Node.noEnv (Node.answering "pong")).
Proof.
  exact (proj1 (initialisation_requires_credential (H := Node.engine)
                  (Node.freshWith Node.noEnv (Node.answering "pong")) eq_refl)).
Defined.

(** With a credential the handles are created before the connection is
    tested, and stay. *)
Lemma initGeminiClient_handles `{Engine} (w : World) :
  hasCredential w ->
  sameSetup (configured w) (snd (initGeminiClient w))
  /\ exists n, n <= 3 /\ issued w (snd (initGeminiClient w)) = repeat (testRequest w) n.
Proof.
  intros Hcred. unfold hasCredential in Hcred.
  destruct (connectLoop_run (proModelName w) (flashModelName w) maxAttempts 0
              (configured w)
              eq_refl ltac:(unfold maxAttempts; lia) ltac:(unfold maxAttempts; lia))
    as (out & w1 & evs & n & Hrun & Hsame & Htr & Hreq & Hn & _).
  change (trace (configured w)) with (trace w) in Htr.
  unfold maxAttempts in Hn. cbn [Nat.add] in Hn.
  rewrite initGeminiClient_unfold, Hcred, Hrun.
  destruct out as [[] | e | | code |]; cbn [snd].
  all: split;
    [first [exact Hsame
           | apply (sameSetup_trans _ w1); [exact Hsame | apply sameSetup_log]] |].
  all: exists n; split; [exact Hn |].
  all: first [ now rewrite (issued_app w w1 evs Htr)
             | erewrite issued_app;
               [| cbn [trace emit]; rewrite Htr, <- app_assoc; reflexivity];
               rewrite requestsOf_app, Hreq; cbn [requestsOf]; now rewrite app_nil_r ].
Qed.

(** X14. With a credential, whether the connection test succeeds or not,
    [initGeminiClient] leaves the three module globals set: the key, and the
    Pro and Flash handles named by the environment or, when the variable is
    unset or empty, by the defaults.  All its requests are the "Test
    connection" prompt on the Flash handle; the Pro model is not
    contacted. *)
Theorem initialisation_sets_handles `{Engine} (w : World) :
  hasCredential w ->
  let w' := snd (initGeminiClient w) in
  genAI w' = Some (valueOf (env w "GEMINI_API_KEY"))
  /\ geminiProModel w'
     = Some (orElse (env w "GEMINI_PRO_MODEL") "gemini-2.5-pro-preview-03-25")
  /\ geminiFlashModel w'
     = Some (orElse (env w "GEMINI_FLASH_MODEL") "gemini-2.5-flash-preview-04-17")
  /\ env w' = env w /\ upstream w' = upstream w
  /\ Forall (fun r => r = GenerateContent
                           (orElse (env w "GEMINI_FLASH_MODEL")
                              "gemini-2.5-flash-preview-04-17")
                           "Test connection")
       (issued w w').
Proof.
  intros Hcred w'. subst w'.
  destruct (initGeminiClient_handles w Hcred)
    as ((Henv & Hup & _ & Hgen & Hpro & Hflash) & n & _ & Hissued).
  rewrite Hgen, Hpro, Hflash, Henv, Hup, Hissued.
  repeat split.
  apply Forall_forall. intros r Hin. now apply repeat_spec in Hin.
Qed.

Lemma initialisation_sets_handles_witness :
  geminiProModel (snd (initGeminiClient (H := Node.engine)
                         (Node.freshWith Node.overrides (Node.rejecting (ErrorObj "503")))))
  = Some "gemini-exp"
  /\ geminiFlashModel (snd (initGeminiClient (H := Node.engine)
                              (Node.freshWith Node.overrides
                                 (Node.rejecting (ErrorObj "503")))))
     = Some "gemini-2.5-flash-preview-04-17".
Proof.
  destruct (initialisation_sets_handles (H := Node.engine)
              (Node.freshWith Node.overrides (Node.rejecting (ErrorObj "503"))) eq_refl)
    as (_ & Hpro & Hflash & _).
  split; [exact Hpro | exact Hflash].
Defined.

(** X15. After a successful [initGeminiClient], a first brainstorm round
    sends its prompt to the Pro model the environment names (or the default
    one), in one request. *)
Theorem first_round_after_initialisation `{Engine} prompt round claudeInput history
    (w : World) :
  fst (initGeminiClient w) = Done tt ->
  strictEq round one = true ->
  let w1 := snd (initGeminiClient w) in
  issued w1 (snd (brainstormHandler prompt round claudeInput history w1))
  = [GenerateContent (orElse (env w "GEMINI_PRO_MODEL") "gemini-2.5-pro-preview-03-25")
       (initialPrompt prompt)].
Proof.
  intros Hdone Hone w1.
  assert (Hcred : hasCredential w).
  { unfold hasCredential. destruct (falsy (env w "GEMINI_API_KEY")) eqn:E; [| reflexivity].
    rewrite initGeminiClient_unfold, E in Hdone. discriminate Hdone. }
  destruct (initGeminiClient_handles w Hcred) as ((_ & _ & _ & _ & Hpro & _) & _).
  fold w1 in Hpro. change (geminiProModel (configured w)) with (Some (proModelName w)) in Hpro.
  rewrite brainstormHandler_run, Hone.
  now destruct (boundary_generate "Error in brainstorming: " (initialPrompt prompt)
                  ConsoleLog ("Brainstorming round " ++ numberToString round
                              ++ " with Gemini") w1 (proModelName w) Hpro)
    as (Hissued & _).
Qed.

Lemma first_round_after_initialisation_witness :
  issued (snd (initGeminiClient (H := Node.engine)
                 (Node.freshWith Node.overrides (Node.flaky 1))))
    (snd (brainstormHandler (H := Node.engine) "Build a todo app" 1%Z None None
            (snd (initGeminiClient (H := Node.engine)
                    (Node.freshWith Node.overrides (Node.flaky 1))))))
  = [GenerateContent "gemini-exp" (initialPrompt "Build a todo app")].
Proof.
  exact (first_round_after_initialisation (H := Node.engine) "Build a todo app" 1%Z
           None None (Node.freshWith Node.overrides (Node.flaky 1)) eq_refl eq_refl).
Defined.

(* ===================================================================== *)
(** * The single-attempt revision of the initialisation                   *)
(* ===================================================================== *)

Lemma initGeminiClientOnce_run `{Engine} (w : World) :
  hasCredential w ->
  let r := GenerateContent (flashModelNameOnce w) "Test connection" in
  let set := withFlashModel (flashModelNameOnce w)
               (withProModel (proModelNameOnce w)
                  (withGenAI (valueOf (env w "GEMINI_API_KEY")) w)) in
  let sent := emit (EvRequest r) set in
  let failed t := emit (EvLog LogError "Failed to initialize Gemini client:")
                    (advanceTo t sent) in
  GeminiClientOnce.initGeminiClient w =
    match nextReply w r with
    | NoReply => (Pending, sent)
    | After d (Rejected e) => (Raised e, failed (now w + d)%N)
    | After d (Fulfilled NoResult) =>
        (Raised (ErrorObj "Failed to connect to Gemini API"), failed (now w + d)%N)
    | After d (Fulfilled _) =>
        (Done tt,
         emit (EvLog LogInfo ("Flash model: " ++ flashModelNameOnce w))
           (emit (EvLog LogInfo ("Pro model: " ++ proModelNameOnce w))
              (emit (EvLog LogInfo "Successfully connected to Gemini API")
                 (advanceTo (now w + d) sent))))
    end.
Proof.
  intros Hcred r set sent failed. unfold hasCredential in Hcred.
  unfold GeminiClientOnce.initGeminiClient, getEnv. cbn [bind Monad_Async].
  rewrite Hcred.
  unfold setGenAI, setProModel, setFlashModel, getFlashModel, generateContent,
    callUpstream, log, nextReply.
  cbn -[N.add N.max append orElse].
  fold (flashModelNameOnce w) (proModelNameOnce w). fold r.
  destruct (upstream w (requestsOf (trace w)) r) as [d [[| t | e] | e] |];
    reflexivity.
Qed.

(** X16. The revision of [initGeminiClient] without the retry loop makes,
    with a credential, exactly one validation request whatever the answer.
    It has no deadline: a good answer is accepted however late it comes, and
    with no answer the call stays pending for ever.  A rejection is rethrown
    as it is, without a second attempt; a falsy result gives "Failed to
    connect to Gemini API". *)
Theorem single_attempt_initialisation `{Engine} (w : World) :
  hasCredential w ->
  let r := GenerateContent (orElse (env w "GEMINI_FLASH_MODEL") "gemini-2.5-flash")
             "Test connection" in
  let res := GeminiClientOnce.initGeminiClient w in
  issued w (snd res) = [r]
  /\ (forall d result, nextReply w r = After d (Fulfilled result) -> result <> NoResult ->
      fst res = Done tt /\ now (snd res) = (now w + d)%N
      /\ geminiProModel (snd res)
         = Some (orElse (env w "GEMINI_PRO_MODEL") "gemini-2.5-pro"))
  /\ (forall d e, nextReply w r = After d (Rejected e) -> fst res = Raised e)
  /\ (forall d, nextReply w r = After d (Fulfilled NoResult) ->
      fst res = Raised (ErrorObj "Failed to connect to Gemini API"))
  /\ (nextReply w r = NoReply -> fst res = Pending).
Proof.
  intros Hcred r res. subst res. rewrite (initGeminiClientOnce_run w Hcred).
  fold (flashModelNameOnce w) in r. fold r.
  destruct (nextReply w r) as [d [[| t | e] | e] |]; cbn [fst snd].
  all: split;
    [erewrite issued_app;
       [| cbn [trace emit advanceTo withFlashModel withProModel withGenAI];
          rewrite <- ?app_assoc; reflexivity];
       reflexivity |].
  all: split;
    [first [ solve [intros ? ? [=]]
           | intros ? ? [= <- <-] Hres; first [ congruence
                                             | split; [reflexivity |];
                                               split; [cbn; lia | reflexivity] ] ] |].
  all: split; [first [ solve [intros ? ? [=]] | intros ? ? [= <- <-]; reflexivity ] |].
  all: split; [first [ solve [intros ? [=]] | intros ? [= <-]; reflexivity ] |].
  all: first [ solve [intros [=]] | reflexivity ].
Qed.

Lemma single_attempt_initialisation_witness :
  fst (GeminiClientOnce.initGeminiClient (H := Node.engine) (Node.fresh (Node.slow 15000)))
  = Done tt
  /\ now (snd (GeminiClientOnce.initGeminiClient (H := Node.engine)
                 (Node.fresh (Node.slow 15000)))) = 15000%N
  /\ fst (GeminiClientOnce.initGeminiClient (H := Node.engine) (Node.fresh Node.silent))
     = Pending
  /\ fst (GeminiClientOnce.initGeminiClient (H := Node.engine)
            (Node.fresh (Node.flaky 1)))
     = Raised (ErrorObj "503 Service Unavailable").
Proof.
  split; [| split; [| split]].
  - destruct (single_attempt_initialisation (H := Node.engine)
                (Node.fresh (Node.slow 15000)) eq_refl) as (_ & Hok & _).
    destruct (Hok 15000%N (WithText "pong") eq_refl) as (Hdone & _); [discriminate |].
    exact Hdone.
  - destruct (single_attempt_initialisation (H := Node.engine)
                (Node.fresh (Node.slow 15000)) eq_refl) as (_ & Hok & _).
    destruct (Hok 15000%N (WithText "pong") eq_refl) as (_ & Hnow & _); [discriminate |].
    exact Hnow.
  - destruct (single_attempt_initialisation (H := Node.engine)
                (Node.fresh Node.silent) eq_refl) as (_ & _ & _ & _ & Hpending).
    exact (Hpending eq_refl).
  - destruct (single_attempt_initialisation (H := Node.engine)
                (Node.fresh (Node.flaky 1)) eq_refl) as (_ & _ & Hrej & _).
    exact (Hrej 40%N (ErrorObj "503 Service Unavailable") eq_refl).
Defined.

(* ===================================================================== *)
(** * More on startup                                                     *)
(* ===================================================================== *)










Lemma main_serves_or_exits_witness :
  fst (Index.main (H := Node.engine) "normal" (Node.fresh (Node.flaky 2))) = Done tt
  /\ fst (Index.main (H := Node.engine) "normal"
            (Node.fresh (Node.rejecting (ErrorObj "401 Unauthorized"))))
     = Exited 1.
Proof.
  split.
  - refine (proj1 (main_serves_or_exits (H := Node.engine) "normal"
                     (Node.fresh (Node.flaky 2)) eq_refl)
              2 (proj1 (Nat.ltb_lt 2 3) eq_refl) _ eq_refl).
    intros [| [| k]] Hk.
    + exists "503 Service Unavailable". reflexivity.
    + exists "503 Service Unavailable". reflexivity.
    + lia.
  - exact (proj2 (main_serves_or_exits (H := Node.engine) "normal"
                    (Node.fresh (Node.rejecting (ErrorObj "401 Unauthorized"))) eq_refl)
             "401 Unauthorized" "401 Unauthorized" "401 Unauthorized"
             eq_refl eq_refl eq_refl).
Defined.

(** X19. The tool handlers put no deadline on the model: on an initialised
    client whose upstream never answers, the synthesis and every brainstorm
    round that reaches the model stay pending; they neither return nor
    throw. *)
Theorem handlers_wait_without_timeout `{Engine} prompt round claudeInput history
    (synthesisHistory : list BrainstormRound) (w : World) (m : string) :
  geminiProModel w = Some m ->
  (forall before r, upstream w before r = NoReply) ->
  fst (synthesisHandler prompt synthesisHistory w) = Pending
  /\ (strictEq round one = true \/ falsy claudeInput = false ->
      fst (brainstormHandler prompt round claudeInput history w) = Pending).
Proof.
  intros Hm Hsilent.
  assert (G : forall label p ch pre,
             fst (boundary label (generateWithGeminiPro p (emit (EvLog ch pre) w)))
             = Pending).
  { intros label p ch pre.
    destruct (boundary_generate label p ch pre w m Hm) as (_ & _ & _ & _ & _ & Hpending).
    apply Hpending. apply Hsilent. }
  split.
  - rewrite synthesisHandler_run. apply G.
  - intros Hreach. rewrite brainstormHandler_run.
    destruct (strictEq round one); [apply G |].
    destruct Hreach as [Hone | Hinput]; [discriminate Hone |].
    rewrite Hinput. apply G.
Qed.

Lemma handlers_wait_without_timeout_witness :
  fst (synthesisHandler (H := Node.engine) "Build a todo app" [Node.roundOne]
         (Node.ready Node.silent)) = Pending
  /\ fst (brainstormHandler (H := Node.engine) "Build a todo app" 1%Z None None
            (Node.ready Node.silent)) = Pending.
Proof.
  destruct (handlers_wait_without_timeout (H := Node.engine) "Build a todo app" 1%Z
              None None [Node.roundOne] (Node.ready Node.silent)
              "gemini-2.5-pro-preview-03-25" eq_refl (fun _ _ => eq_refl))
    as (Hsyn & Hround).
  split; [exact Hsyn | exact (Hround (or_introl eq_refl))].
Defined.
